(** * RMSNorm layer of the Paddle front end: model and properties

    Shallow embedding of [transformer_engine/paddle/layer/rmsnorm.py]:
    the autograd function [_RMSNorm] (forward and backward around the
    accelerated kernels) and the layer class [RMSNorm] (construction, the
    two backends and the dispatcher).

    - A tensor is a shape and its elements in row-major order.  The
      arithmetic of the elements is a parameter ([FloatOps]); [binary32]
      is IEEE single precision, used where numbers are computed.
    - Python objects that are shared and mutated (tensors, with their
      [stop_gradient] attribute) live in a heap and are named by
      locations.  The process environment, the default dtype, the
      contexts attached to outputs and a trace of the calls that leave the
      module are part of the same state.  Exceptions are results.
    - The framework's operations follow its documentation: [reshape]
      infers the entry [-1] and copies an input dimension for the entry
      [0]; the product of two tensors broadcasts, shapes aligned on their
      last dimension; [mean(axis=-1, keepdim=True)] keeps a last dimension
      of size one.
    - The dtype table and the two kernels, which the module imports, are
      parameters ([Externals]). *)

From Stdlib Require Import ZArith QArith Qabs Ascii String List Lia.
From Stdlib Require Import Floats.SpecFloat.
From stdpp Require Import base option list strings gmap.

Import ListNotations.
Local Open Scope string_scope.
Local Open Scope nat_scope.
Local Open Scope list_scope.

(* ===================================================================== *)
(** * Python values: exceptions and the builtin [int] on strings          *)
(* ===================================================================== *)

(** The exceptions the module can raise, with their messages. *)
Inductive exn : Type :=
| AssertionError (msg : string)
| NotImplementedError (msg : string)
| AttributeError (msg : string)
| ValueError (msg : string)
| KeyError
| IndexError
| TypeError
| ReferenceError.

Inductive result (A : Type) : Type :=
| Ok (a : A)
| Raise (e : exn).
Arguments Ok {A} a.
Arguments Raise {A} e.

Module PyInt.

(** Characters that [int] strips around a literal (the ASCII ones of
    [str.isspace]). *)
Definition is_space (c : ascii) : bool :=
  let n := nat_of_ascii c in
  ((9 <=? n) && (n <=? 13)) || ((28 <=? n) && (n <=? 32)).

Definition digit_of (c : ascii) : option Z :=
  let n := Z.of_nat (nat_of_ascii c) in
  if ((48 <=? n) && (n <=? 57))%Z then Some (n - 48)%Z else None.

Fixpoint lstrip (l : list ascii) : list ascii :=
  match l with
  | c :: l' => if is_space c then lstrip l' else l
  | [] => []
  end.

Definition strip (l : list ascii) : list ascii :=
  rev (lstrip (rev (lstrip l))).

(** Decimal digits, single underscores allowed between two digits.
    [prev] tells whether the previous character was a digit. *)
Fixpoint digits (acc : Z) (prev : bool) (l : list ascii) : option Z :=
  match l with
  | [] => if prev then Some acc else None
  | c :: l' =>
      if Ascii.eqb c "_"%char
      then (if prev then digits acc false l' else None)
      else match digit_of c with
           | Some d => digits (10 * acc + d)%Z true l'
           | None => None
           end
  end.

(** [int(s)] in base ten; [None] stands for [ValueError].  Strings are
    ASCII text. *)
Definition int (s : string) : option Z :=
  match strip (list_ascii_of_string s) with
  | "+"%char :: r => digits 0 false r
  | "-"%char :: r => Z.opp <$> digits 0 false r
  | l => digits 0 false l
  end.

End PyInt.

(* ===================================================================== *)
(** * Scalars                                                             *)
(* ===================================================================== *)

(** The arithmetic of tensor elements.  The layer is generic in the element
    type; [binary32] below is IEEE single precision. *)
Class FloatOps (F : Type) : Type := {
  fzero : F;
  fone : F;
  fadd : F -> F -> F;
  fsub : F -> F -> F;
  fmul : F -> F -> F;
  fdiv : F -> F -> F;
  fsqrt : F -> F;
  fof_nat : nat -> F
}.

(** [paddle.rsqrt] on one element. *)
Definition frsqrt {F} `{FloatOps F} (x : F) : F := fdiv fone (fsqrt x).

Module Binary32.

Definition prec : Z := 24.
Definition emax : Z := 128.

Definition of_Z (z : Z) : spec_float := binary_normalize prec emax z 0 false.

(** The exact rational value of a finite number. *)
Definition to_Q (x : spec_float) : option Q :=
  match x with
  | S754_zero _ => Some 0%Q
  | S754_finite s m e =>
      let v := (inject_Z (Zpos m) * Qpower 2 e)%Q in
      Some (if s then Qopp v else v)
  | _ => None
  end.

(** [|x - c| <= tol], false on infinities and NaN. *)
Definition close_to (c tol : Q) (x : spec_float) : bool :=
  match to_Q x with
  | Some q => Qle_bool (Qabs (q - c)) tol
  | None => false
  end.

End Binary32.

#[export] Instance binary32 : FloatOps spec_float := {|
  fzero := S754_zero false;
  fone := Binary32.of_Z 1;
  fadd := SFadd Binary32.prec Binary32.emax;
  fsub := SFsub Binary32.prec Binary32.emax;
  fmul := SFmul Binary32.prec Binary32.emax;
  fdiv := SFdiv Binary32.prec Binary32.emax;
  fsqrt := SFsqrt Binary32.prec Binary32.emax;
  fof_nat := fun n => Binary32.of_Z (Z.of_nat n)
|}.

(* ===================================================================== *)
(** * Tensors                                                             *)
(* ===================================================================== *)

(** Element types of the framework that the layer can meet. *)
Inductive DType : Type :=
| float16 | bfloat16 | float32 | float64 | int32 | uint8.

(** A tensor object: shape, elements in row-major order, and the
    attributes the module reads or writes. *)
Record Tensor (F : Type) : Type := mkTensor {
  shape : list nat;
  data : list F;
  dtype : DType;
  stop_gradient : bool;
  sequence_parallel : bool
}.
Arguments mkTensor {F} _ _ _ _ _.
Arguments shape {F} _.
Arguments data {F} _.
Arguments dtype {F} _.
Arguments stop_gradient {F} _.
Arguments sequence_parallel {F} _.

Definition numel (s : list nat) : nat := fold_right Nat.mul 1 s.

(** Row [r] of a flat list cut into rows of [n] elements. *)
Definition row {A} (n r : nat) (d : list A) : list A :=
  firstn n (skipn (r * n) d).

Module Shape.

(** ** [Tensor.reshape] *)

(** One entry of a target shape at position [i]: [-1] is inferred
    ([Some None]), [0] copies the input's dimension [i], a positive entry
    stands for itself; anything else is refused ([None]). *)
Definition resolve_dim (s : list nat) (i : nat) (z : Z) : option (option nat) :=
  if (z =? -1)%Z then Some None
  else if (z =? 0)%Z then Some <$> (s !! i)
  else if (0 <? z)%Z then Some (Some (Z.to_nat z))
  else None.

Fixpoint resolve (s : list nat) (i : nat) (target : list Z)
  : option (list (option nat)) :=
  match target with
  | [] => Some []
  | z :: target' =>
      match resolve_dim s i z, resolve s (S i) target' with
      | Some d, Some ds => Some (d :: ds)
      | _, _ => None
      end
  end.

(** Product of the known entries, and the number of entries to infer. *)
Definition capacity (ds : list (option nat)) : nat :=
  fold_right (fun d acc => match d with Some k => k * acc | None => acc end) 1 ds.

Definition unknowns (ds : list (option nat)) : nat :=
  fold_right (fun d acc => match d with Some _ => acc | None => S acc end) 0 ds.

(** The shape a reshape to [target] produces, [None] when it is refused. *)
Definition reshape (s : list nat) (target : list Z) : option (list nat) :=
  match resolve s 0 target with
  | None => None
  | Some ds =>
      let c := capacity ds in
      match unknowns ds with
      | 0 => if numel s =? c then Some (map (default 0) ds) else None
      | 1 =>
          if (c =? 0) || negb (numel s mod c =? 0) then None
          else Some (map (default (numel s / c)) ds)
      | _ => None
      end
  end.

(** ** Broadcasting of two shapes *)

Definition pad (k : nat) (s : list nat) : list nat :=
  repeat 1 (k - length s) ++ s.

Definition bdim (a b : nat) : option nat :=
  if a =? b then Some a
  else if a =? 1 then Some b
  else if b =? 1 then Some a
  else None.

(** Shapes of equal rank. *)
Fixpoint bshape (sa sb : list nat) : option (list nat) :=
  match sa, sb with
  | [], [] => Some []
  | a :: sa', b :: sb' =>
      match bdim a b, bshape sa' sb' with
      | Some d, Some s => Some (d :: s)
      | _, _ => None
      end
  | _, _ => None
  end.

(** Shapes are aligned on their last dimension; the shorter one is
    extended with ones in front. *)
Definition broadcast (sa sb : list nat) : option (list nat) :=
  let k := Nat.max (length sa) (length sb) in
  bshape (pad k sa) (pad k sb).

End Shape.

Section TensorOps.
Context {F : Type} {FO : FloatOps F}.

(** A result tensor of an operation: it needs a gradient as soon as one
    operand does. *)
Definition derived (t : Tensor F) (s : list nat) (d : list F) (sg : bool)
  : Tensor F :=
  mkTensor s d (dtype t) sg false.

(** [t.reshape(target)] *)
Definition t_reshape (t : Tensor F) (target : list Z) : option (Tensor F) :=
  s ← Shape.reshape (shape t) target;
  Some (derived t s (data t) (stop_gradient t)).

(** [t ** 2] *)
Definition t_square (t : Tensor F) : Tensor F :=
  derived t (shape t) (map (fun x => fmul x x) (data t)) (stop_gradient t).

Definition fsum (l : list F) : F := fold_left fadd l fzero.

Definition fmean (l : list F) : F := fdiv (fsum l) (fof_nat (length l)).

(** [paddle.mean(t, axis=-1, keepdim=True)]; a tensor without dimensions
    has no last axis. *)
Definition t_mean_last (t : Tensor F) : option (Tensor F) :=
  match last (shape t) with
  | None => None
  | Some n =>
      let lead := removelast (shape t) in
      Some (derived t (lead ++ [1])
              (map (fun r => fmean (row n r (data t))) (seq 0 (numel lead)))
              (stop_gradient t))
  end.

(** [t + c] with a Python number [c] *)
Definition t_add_scalar (t : Tensor F) (c : F) : Tensor F :=
  derived t (shape t) (map (fun x => fadd x c) (data t)) (stop_gradient t).

(** [paddle.rsqrt(t)] *)
Definition t_rsqrt (t : Tensor F) : Tensor F :=
  derived t (shape t) (map frsqrt (data t)) (stop_gradient t).

(** Elements of the broadcast product, for shapes of equal rank: along a
    dimension where one side has size one, that side is repeated. *)
Fixpoint bmul (sa sb : list nat) (da db : list F) : list F :=
  match sa, sb with
  | a :: sa', b :: sb' =>
      flat_map
        (fun i =>
           bmul sa' sb'
             (row (numel sa') (if a =? 1 then 0 else i) da)
             (row (numel sb') (if b =? 1 then 0 else i) db))
        (seq 0 (if a =? 1 then b else a))
  | _, _ => [fmul (nth 0 da fzero) (nth 0 db fzero)]
  end.

(** [a * b] *)
Definition t_mul (a b : Tensor F) : option (Tensor F) :=
  s ← Shape.broadcast (shape a) (shape b);
  let k := Nat.max (length (shape a)) (length (shape b)) in
  Some (derived a s
          (bmul (Shape.pad k (shape a)) (Shape.pad k (shape b)) (data a) (data b))
          (stop_gradient a && stop_gradient b)).

(** Every element is there. *)
Definition wf (t : Tensor F) : Prop := length (data t) = numel (shape t).

End TensorOps.

(* ===================================================================== *)
(** * What the module imports from the rest of the package                *)
(* ===================================================================== *)

(** [TE_DType] of [..constants] and the two kernels of [..cpp_extensions]
    are taken as parameters.  The kernels are functions of the tensors
    they are given:
    [(input matrix, scale, eps, dtype tag, SM margin, zero-centered flag)]
    to [(output matrix, reciprocal-RMS statistic)], and
    [(output gradient, input matrix, statistic, scale, SM margin,
    zero-centered flag)] to [(input gradient, scale gradient)]. *)
Class Externals (F : Type) : Type := {
  te_dtype : Type;
  TE_DType : DType -> option te_dtype;
  rmsnorm_fwd_kernel :
    Tensor F -> Tensor F -> F -> te_dtype -> Z -> bool -> Tensor F * Tensor F;
  rmsnorm_bwd_kernel :
    Tensor F -> Tensor F -> Tensor F -> Tensor F -> Z -> bool -> Tensor F * Tensor F
}.

(* ===================================================================== *)
(** * The interpreter state and its monad                                 *)
(* ===================================================================== *)

Definition loc : Type := nat.

(** What [_RMSNorm.forward] leaves on its context object. *)
Record Ctx : Type := mkCtx {
  saved_tensor : loc * loc * loc;
  inp_shape : list nat;
  ctx_bwd_rmsnorm_sm_margin : Z;
  ctx_zero_centered_gamma : bool;
  requires_dx : bool;
  requires_dw : bool
}.

Inductive op_name : Type :=
| OpReshape | OpPow | OpMean | OpAddScalar | OpRsqrt | OpMul.

(** Calls that leave the module, in the order they are made.  Tensor
    operations are recorded with the shapes of their operands. *)
Inductive event : Type :=
| Getenv (name : string)
| CreateParameter (s : list nat)
| MarkSequenceParallel (l : loc)
| TensorOp (op : op_name) (operands : list (list nat))
| RmsnormFwd (x_shape : list nat) (sm_margin : Z) (zcg : bool)
| RmsnormBwd (dy_shape : list nat) (sm_margin : Z) (zcg : bool).

Record state (F : Type) : Type := mkState {
  heap : list (Tensor F);
  environ : gmap string string;
  default_dtype : DType;
  tape : list (loc * Ctx);
  trace : list event
}.
Arguments mkState {F} _ _ _ _ _.
Arguments heap {F} _.
Arguments environ {F} _.
Arguments default_dtype {F} _.
Arguments tape {F} _.
Arguments trace {F} _.

Definition M (F A : Type) : Type := state F -> result A * state F.

Section Monad.
Context {F : Type}.

Definition ret {A} (a : A) : M F A := fun st => (Ok a, st).

Definition bind {A B} (m : M F A) (k : A -> M F B) : M F B :=
  fun st =>
    match m st with
    | (Ok a, st') => k a st'
    | (Raise e, st') => (Raise e, st')
    end.

Definition raise {A} (e : exn) : M F A := fun st => (Raise e, st).

Definition emit (e : event) : M F unit :=
  fun st =>
    (Ok tt, mkState (heap st) (environ st) (default_dtype st) (tape st)
              (trace st ++ [e])).

(** Reading through a reference; every reference a program holds is live,
    [ReferenceError] is for locations that were never allocated. *)
Definition deref (l : loc) : M F (Tensor F) :=
  fun st =>
    match heap st !! l with
    | Some t => (Ok t, st)
    | None => (Raise ReferenceError, st)
    end.

Definition alloc (t : Tensor F) : M F loc :=
  fun st =>
    (Ok (length (heap st)),
     mkState (heap st ++ [t]) (environ st) (default_dtype st) (tape st)
       (trace st)).

(** Attribute assignment on a live object. *)
Definition store (l : loc) (t : Tensor F) : M F unit :=
  fun st =>
    (Ok tt, mkState (<[l := t]> (heap st)) (environ st) (default_dtype st)
              (tape st) (trace st)).

Definition record (out : loc) (c : Ctx) : M F unit :=
  fun st =>
    (Ok tt, mkState (heap st) (environ st) (default_dtype st)
              (tape st ++ [(out, c)]) (trace st)).

Definition get_default_dtype : M F DType :=
  fun st => (Ok (default_dtype st), st).

(** [os.getenv(name, default)] *)
Definition getenv (name default : string) : M F string :=
  fun st =>
    (Ok (match environ st !! name with Some v => v | None => default end),
     mkState (heap st) (environ st) (default_dtype st) (tape st)
       (trace st ++ [Getenv name])).

(** [assert cond, msg] *)
Definition assert (cond : bool) (msg : string) : M F unit :=
  if cond then ret tt else raise (AssertionError msg).

(** Lifting a partial library function: [None] is the exception [e]. *)
Definition lift {A} (o : option A) (e : exn) : M F A :=
  match o with
  | Some a => ret a
  | None => raise e
  end.

(** The state after some tensors were allocated and some calls made. *)
Definition extend (st : state F) (ts : list (Tensor F)) (evs : list event)
  : state F :=
  mkState (heap st ++ ts) (environ st) (default_dtype st) (tape st)
    (trace st ++ evs).

End Monad.

Notation "'do' x <- m ;; k" := (bind m (fun x => k))
  (at level 10, x name, m at level 99, k at level 200, only parsing).
Notation "'do' ' p <- m ;; k" := (bind m (fun p => k))
  (at level 10, p pattern, m at level 99, k at level 200, only parsing).
Notation "'run' m ;; k" := (bind m (fun _ => k))
  (at level 10, m at level 99, k at level 200, only parsing).

(* ===================================================================== *)
(** * The framework's tensor operations, as calls                         *)
(* ===================================================================== *)

Module paddle.

(** ** Parameter attributes *)

Inductive Initializer (F : Type) : Type :=
| Constant (value : F)
| Assign (values : list F).
Arguments Constant {F} value.
Arguments Assign {F} values.

Record ParamAttr (F : Type) : Type := mkParamAttr {
  initializer : Initializer F;
  trainable : bool
}.
Arguments mkParamAttr {F} _ _.
Arguments initializer {F} _.
Arguments trainable {F} _.

Section Ops.
Context {F : Type} {FO : FloatOps F}.

Definition shape_error : exn := ValueError "shape mismatch".

(** [t.reshape(target)] *)
Definition reshape (l : loc) (target : list Z) : M F loc :=
  do t <- deref l ;;
  run emit (TensorOp OpReshape [shape t]) ;;
  do t' <- lift (t_reshape t target) shape_error ;;
  alloc t'.

(** [t ** 2] *)
Definition square (l : loc) : M F loc :=
  do t <- deref l ;;
  run emit (TensorOp OpPow [shape t]) ;;
  alloc (t_square t).

(** [paddle.mean(t, axis=-1, keepdim=True)] *)
Definition mean_last (l : loc) : M F loc :=
  do t <- deref l ;;
  run emit (TensorOp OpMean [shape t]) ;;
  do t' <- lift (t_mean_last t) shape_error ;;
  alloc t'.

(** [t + c] *)
Definition add_scalar (l : loc) (c : F) : M F loc :=
  do t <- deref l ;;
  run emit (TensorOp OpAddScalar [shape t]) ;;
  alloc (t_add_scalar t c).

(** [paddle.rsqrt(t)] *)
Definition rsqrt (l : loc) : M F loc :=
  do t <- deref l ;;
  run emit (TensorOp OpRsqrt [shape t]) ;;
  alloc (t_rsqrt t).

(** [a * b] *)
Definition mul (la lb : loc) : M F loc :=
  do a <- deref la ;;
  do b <- deref lb ;;
  run emit (TensorOp OpMul [shape a; shape b]) ;;
  do t' <- lift (t_mul a b) shape_error ;;
  alloc t'.

(** ** Parameters *)

Definition initial_values (i : Initializer F) (s : list nat) : option (list F) :=
  match i with
  | Constant v => Some (repeat v (numel s))
  | Assign vs => if length vs =? numel s then Some vs else None
  end.

(** [Layer.create_parameter(shape, attr, dtype, is_bias=False)] *)
Definition create_parameter (s : list nat) (attr : ParamAttr F) (dt : DType)
  : M F loc :=
  run emit (CreateParameter s) ;;
  do d <- lift (initial_values (initializer attr) s) shape_error ;;
  alloc (mkTensor s d dt (negb (trainable attr)) false).

End Ops.
End paddle.

(** ** What a caller does with tensor objects *)

Section Callers.
Context {F : Type}.

(** [t.stop_gradient = b] *)
Definition set_stop_gradient (l : loc) (b : bool) : M F unit :=
  do t <- deref l ;;
  store l (mkTensor (shape t) (data t) (dtype t) b (sequence_parallel t)).

(** What a caller may do between a forward call and its backward call:
    flip gradient flags of live tensors, create tensors. *)
Inductive action : Type :=
| SetStopGradient (l : loc) (b : bool)
| NewTensor (t : Tensor F).

Fixpoint perform (acts : list action) : M F unit :=
  match acts with
  | [] => ret tt
  | SetStopGradient l b :: acts' =>
      run set_stop_gradient l b ;; perform acts'
  | NewTensor t :: acts' =>
      run alloc t ;; perform acts'
  end.

End Callers.

(** Modelled from the spec: [mark_as_sequence_parallel_parameter] of
    [..distributed] is not in this file; it "marks the scale parameter as
    participating in a sequence-parallel gradient reduction scheme", here
    an attribute set on the tensor object. *)
Definition mark_as_sequence_parallel_parameter {F} (l : loc) : M F unit :=
  do t <- deref l ;;
  run emit (MarkSequenceParallel l) ;;
  store l (mkTensor (shape t) (data t) (dtype t) (stop_gradient t) true).

(** The kernels as calls: operands are read, the results are new tensor
    objects. *)
Section Kernels.
Context {F : Type} {X : Externals F}.

Definition rmsnorm_fwd (x w : loc) (eps : F) (dt : te_dtype) (sm_margin : Z)
  (zcg : bool) : M F (loc * loc) :=
  do xt <- deref x ;;
  do wt <- deref w ;;
  run emit (RmsnormFwd (shape xt) sm_margin zcg) ;;
  do out <- alloc (fst (rmsnorm_fwd_kernel xt wt eps dt sm_margin zcg)) ;;
  do rsigma <- alloc (snd (rmsnorm_fwd_kernel xt wt eps dt sm_margin zcg)) ;;
  ret (out, rsigma).

Definition rmsnorm_bwd (dy x rsigma w : loc) (sm_margin : Z) (zcg : bool)
  : M F (loc * loc) :=
  do dyt <- deref dy ;;
  do xt <- deref x ;;
  do rt <- deref rsigma ;;
  do wt <- deref w ;;
  run emit (RmsnormBwd (shape dyt) sm_margin zcg) ;;
  do dx <- alloc (fst (rmsnorm_bwd_kernel dyt xt rt wt sm_margin zcg)) ;;
  do dgamma <- alloc (snd (rmsnorm_bwd_kernel dyt xt rt wt sm_margin zcg)) ;;
  ret (dx, dgamma).

End Kernels.

(* ===================================================================== *)
(** * [class _RMSNorm(paddle.autograd.PyLayer)]                           *)
(* ===================================================================== *)

Module _RMSNorm.
Section Autograd.
Context {F : Type} {FO : FloatOps F} {X : Externals F}.

(** [forward] fills the context object it is given and returns the
    output; the filled context is returned with it. *)
Definition forward (inp rmsnorm_weight : loc) (eps : F)
  (fwd_rmsnorm_sm_margin bwd_rmsnorm_sm_margin : Z) (zero_centered_gamma : bool)
  : M F (Ctx * loc) :=
  do w <- deref rmsnorm_weight ;;
  do in_features <- lift (shape w !! 0) IndexError ;;
  do x <- deref inp ;;
  do last_dim <- lift (last (shape x)) IndexError ;;
  run assert (last_dim =? in_features) "RMSNorm not possible" ;;
  do inputmat <- paddle.reshape inp [(-1)%Z; Z.of_nat in_features] ;;
  do dt <- lift (TE_DType (dtype x)) KeyError ;;
  do '(rmsnorm_out, rsigma) <-
    rmsnorm_fwd inputmat rmsnorm_weight eps dt fwd_rmsnorm_sm_margin
      zero_centered_gamma ;;
  do x <- deref inp ;;
  do w <- deref rmsnorm_weight ;;
  let ctx :=
    mkCtx (inputmat, rmsnorm_weight, rsigma) (shape x) bwd_rmsnorm_sm_margin
      zero_centered_gamma (negb (stop_gradient x)) (negb (stop_gradient w)) in
  do out <- paddle.reshape rmsnorm_out (map Z.of_nat (shape x)) ;;
  ret (ctx, out).

Definition backward (ctx : Ctx) (grad_output : loc)
  : M F (option loc * option loc) :=
  let '(inputmat, rmsnorm_weight, rsigma) := saved_tensor ctx in
  do im <- deref inputmat ;;
  do d_rmsnorm_out <- paddle.reshape grad_output (map Z.of_nat (shape im)) ;;
  do '(dxmat, dgamma) <-
    rmsnorm_bwd d_rmsnorm_out inputmat rsigma rmsnorm_weight
      (ctx_bwd_rmsnorm_sm_margin ctx) (ctx_zero_centered_gamma ctx) ;;
  do dx <-
    (if requires_dx ctx
     then do r <- paddle.reshape dxmat (map Z.of_nat (inp_shape ctx)) ;;
          ret (Some r)
     else ret None) ;;
  ret (dx, if requires_dw ctx then Some dgamma else None).

(** [PyLayer.apply]: runs [forward] on a fresh context and attaches the
    context to the output, for the backward pass to find. *)
Definition apply (inp rmsnorm_weight : loc) (eps : F)
  (fwd_rmsnorm_sm_margin bwd_rmsnorm_sm_margin : Z) (zero_centered_gamma : bool)
  : M F loc :=
  do '(ctx, out) <-
    forward inp rmsnorm_weight eps fwd_rmsnorm_sm_margin bwd_rmsnorm_sm_margin
      zero_centered_gamma ;;
  run record out ctx ;;
  ret out.

End Autograd.
End _RMSNorm.

(* ===================================================================== *)
(** * [class RMSNorm(paddle.nn.Layer)]                                    *)
(* ===================================================================== *)

Module RMSNorm.

Record Layer (F : Type) : Type := mkLayer {
  eps : F;
  zero_centered_gamma : bool;
  sequence_parallel : bool;
  backend : string;
  _dtype : DType;
  _weight_attr : paddle.ParamAttr F;
  weight : loc;
  fwd_rmsnorm_sm_margin : Z;
  bwd_rmsnorm_sm_margin : Z
}.
Arguments mkLayer {F} _ _ _ _ _ _ _ _ _.
Arguments eps {F} _.
Arguments zero_centered_gamma {F} _.
Arguments sequence_parallel {F} _.
Arguments backend {F} _.
Arguments _dtype {F} _.
Arguments _weight_attr {F} _.
Arguments weight {F} _.
Arguments fwd_rmsnorm_sm_margin {F} _.
Arguments bwd_rmsnorm_sm_margin {F} _.

Definition FWD_VAR : string := "NVTE_FWD_LAYERNORM_SM_MARGIN".
Definition BWD_VAR : string := "NVTE_BWD_LAYERNORM_SM_MARGIN".

Section Methods.
Context {F : Type} {FO : FloatOps F} {X : Externals F}.

(** [int(os.getenv(name, "0"))] *)
Definition int_getenv (name : string) : M F Z :=
  do s <- getenv name "0" ;;
  lift (PyInt.int s)
    (ValueError (String.append "invalid literal for int() with base 10: " s)).

Definition __init__ (hidden_size : nat) (eps : F)
  (weight_attr : option (paddle.ParamAttr F))
  (zero_centered_gamma sequence_parallel : bool) (backend : string)
  : M F (Layer F) :=
  do _dtype <- get_default_dtype ;;
  let _weight_attr :=
    match weight_attr with
    | Some a => a
    | None => paddle.mkParamAttr (paddle.Constant fone) true
    end in
  do weight <- paddle.create_parameter [hidden_size] _weight_attr _dtype ;;
  run (if sequence_parallel
       then mark_as_sequence_parallel_parameter weight
       else ret tt) ;;
  do fwd_rmsnorm_sm_margin <- int_getenv FWD_VAR ;;
  do bwd_rmsnorm_sm_margin <- int_getenv BWD_VAR ;;
  ret (mkLayer eps zero_centered_gamma sequence_parallel backend _dtype
         _weight_attr weight fwd_rmsnorm_sm_margin bwd_rmsnorm_sm_margin).

Definition _te_forward (self : Layer F) (inp : loc) : M F loc :=
  _RMSNorm.apply inp (weight self) (eps self) (fwd_rmsnorm_sm_margin self)
    (bwd_rmsnorm_sm_margin self) (zero_centered_gamma self).

Definition _pd_forward (self : Layer F) (inp : loc) : M F loc :=
  if zero_centered_gamma self
  then raise (NotImplementedError
                "Paddle backend does not support RMSNorm with zero_centered_gamma.")
  else
    do sq <- paddle.square inp ;;
    do ms <- paddle.mean_last sq ;;
    do s <- paddle.add_scalar ms (eps self) ;;
    do norm <- paddle.rsqrt s ;;
    do xn <- paddle.mul inp norm ;;
    do y <- paddle.mul xn (weight self) ;;
    ret y.

(** [forward(self, *args)]: the positional arguments are handed on to a
    method of one parameter. *)
Definition forward (self : Layer F) (args : list loc) : M F loc :=
  if String.eqb (backend self) "transformer_engine" then
    match args with
    | [inp] => _te_forward self inp
    | _ => raise TypeError
    end
  else if String.eqb (backend self) "paddle" then
    match args with
    | [inp] => _pd_forward self inp
    | _ => raise TypeError
    end
  else
    raise (AttributeError
             (String.append "Backend "
                (String.append (backend self) " not supported."))).

End Methods.
End RMSNorm.

(* ===================================================================== *)
(** * A sample of what the package provides                               *)
(* ===================================================================== *)

(** Modelled from the spec: the dtype table and the kernel pair are not in
    this file.  The forward kernel computes
    [y = x / sqrt(mean(x²) + eps) * scale], or the zero-centered variant
    [y = x / (rms(x)+eps) * (1+scale)], row by row of the input matrix,
    together with the reciprocal-RMS statistic of each row; the backward
    kernel returns a gradient of the shape of the input matrix and one of
    the shape of the scale.  This sample is what concrete runs of the
    layer are made with. *)
Module Reference.

Inductive tag : Type := kByte | kInt32 | kFloat32 | kFloat16 | kBFloat16.

Definition table (d : DType) : option tag :=
  match d with
  | uint8 => Some kByte
  | int32 => Some kInt32
  | float32 => Some kFloat32
  | float16 => Some kFloat16
  | bfloat16 => Some kBFloat16
  | float64 => None
  end.

Section Kernels.
Context {F : Type} {FO : FloatOps F}.

Definition rows (t : Tensor F) : list (list F) :=
  map (fun r => row (default 0 (last (shape t))) r (data t))
    (seq 0 (numel (removelast (shape t)))).

Definition gain (zcg : bool) (w : Tensor F) : list F :=
  if zcg then map (fadd fone) (data w) else data w.

Definition stat (eps : F) (zcg : bool) (xr : list F) : F :=
  let ms := fmean (map (fun x => fmul x x) xr) in
  if zcg then fdiv fone (fadd (fsqrt ms) eps) else frsqrt (fadd ms eps).

Definition fwd (x w : Tensor F) (eps : F) (dt : tag) (sm_margin : Z)
  (zcg : bool) : Tensor F * Tensor F :=
  let g := gain zcg w in
  let out :=
    flat_map
      (fun xr => zip_with (fun a b => fmul (fmul a (stat eps zcg xr)) b) xr g)
      (rows x) in
  (mkTensor (shape x) out (dtype x) true false,
   mkTensor [length (rows x)] (map (stat eps zcg) (rows x)) float32 true false).

Definition dx_row (g : list F) (dyr xr : list F) (rs : F) : list F :=
  let dyg := zip_with fmul dyr g in
  let c := fmean (zip_with fmul dyg xr) in
  zip_with (fun a b => fmul rs (fsub a (fmul b (fmul (fmul rs rs) c)))) dyg xr.

Definition dgamma_row (dyr xr : list F) (rs : F) : list F :=
  zip_with (fun a b => fmul (fmul a b) rs) dyr xr.

Definition bwd (dy x rsigma w : Tensor F) (sm_margin : Z) (zcg : bool)
  : Tensor F * Tensor F :=
  let g := gain zcg w in
  let per_row := zip (zip (rows dy) (rows x)) (data rsigma) in
  (mkTensor (shape x)
     (flat_map (fun '(dyr, xr, rs) => dx_row g dyr xr rs) per_row)
     (dtype x) true false,
   mkTensor (shape w)
     (fold_left (fun acc '(dyr, xr, rs) => zip_with fadd acc (dgamma_row dyr xr rs))
        per_row (repeat fzero (length (data w))))
     (dtype w) true false).

Definition externals : Externals F := {|
  te_dtype := tag;
  TE_DType := table;
  rmsnorm_fwd_kernel := fwd;
  rmsnorm_bwd_kernel := bwd
|}.

End Kernels.
End Reference.

(** Concrete objects in single precision. *)
Module Sample.

Definition f32 (z : Z) : spec_float := Binary32.of_Z z.

(** [1e-5] *)
Definition eps : spec_float := fdiv (f32 1) (f32 100000).

(** A fresh process: nothing allocated, no variable set. *)
Definition boot : state spec_float := mkState [] ∅ float32 [] [].

Definition with_env (e : gmap string string) : state spec_float :=
  mkState [] e float32 [] [].

(** An input tensor of the given shape and integer-valued elements. *)
Definition input (s : list nat) (d : list Z) (sg : bool) : Tensor spec_float :=
  mkTensor s (map f32 d) float32 sg false.

Definition place (t : Tensor spec_float) (st : state spec_float)
  : state spec_float :=
  mkState (heap st ++ [t]) (environ st) (default_dtype st) (tape st) (trace st).

(** The scale of a layer of feature size four, at location [0]. *)
Definition ones4 : Tensor spec_float :=
  mkTensor [4] (repeat (f32 1) 4) float32 false false.

Definition layer (backend : string) (zcg : bool) : RMSNorm.Layer spec_float :=
  RMSNorm.mkLayer eps zcg false backend float32
    (paddle.mkParamAttr (paddle.Constant (f32 1)) true) 0 0%Z 0%Z.

(** The scale at location [0] and one more tensor at location [1]. *)
Definition world (x : Tensor spec_float) : state spec_float :=
  mkState [ones4; x] ∅ float32 [] [].

(** Feature size 4, [eps = 1e-5], default scale, input row [1,1,1,1],
    direct-arithmetic backend: construction, then one forward call. *)
Definition unit_row_run : result loc * state spec_float :=
  (do self <- RMSNorm.__init__ 4 eps None false false "paddle" ;;
   do inp <- alloc (input [1; 4] [1; 1; 1; 1]%Z false) ;;
   RMSNorm.forward (X := Reference.externals) self [inp]) boot.

Definition tolerance : Q := 1 # 100000.

(** A forward call on the accelerated path, for an input that needs no
    gradient and a scale that needs one. *)
Definition frozen_input : Tensor spec_float :=
  input [2; 4] [1; 2; 3; 4; 5; 6; 7; 8]%Z true.

Definition after_forward : result (Ctx * loc) * state spec_float :=
  _RMSNorm.forward (X := Reference.externals) 1 0 eps 0%Z 0%Z false
    (world frozen_input).

Definition saved : Ctx := mkCtx (2, 0, 4) [2; 4] 0%Z false false true.

(** The gradient of the output, as the framework hands it to [backward]. *)
Definition grad : Tensor spec_float :=
  input [2; 4] [1; 1; 1; 1; 1; 1; 1; 1]%Z true.

(** Between the two calls the caller flips both gradient flags, and the
    framework creates the output gradient. *)
Definition flips : list (action (F := spec_float)) :=
  [SetStopGradient 1 false; SetStopGradient 0 true; NewTensor grad].

(** A process that sets both margins, the layer it constructs, and a
    later state of the same process in which the environment was changed. *)
Definition margins_env : gmap string string :=
  {[ RMSNorm.FWD_VAR := "8"; RMSNorm.BWD_VAR := " 4 " ]}.

Definition tuned_layer : RMSNorm.Layer spec_float :=
  RMSNorm.mkLayer eps false false "transformer_engine" float32
    (paddle.mkParamAttr (paddle.Constant (f32 1)) true) 0 8%Z 4%Z.

Definition later : state spec_float :=
  mkState [ones4; frozen_input] {[ RMSNorm.FWD_VAR := "99" ]} float32 [] [].

(** An input in double precision, a dtype the table does not know. *)
Definition input64 (s : list nat) (d : list Z) : Tensor spec_float :=
  mkTensor s (map f32 d) float64 false false.

(** A tensor without dimensions. *)
Definition scalar : Tensor spec_float := mkTensor [] [f32 3] float32 false false.

(** A weight attribute with zeros, not trainable. *)
Definition zeros_attr : paddle.ParamAttr spec_float :=
  paddle.mkParamAttr (paddle.Constant (f32 0)) false.

(** An input that needs a gradient. *)
Definition live_input : Tensor spec_float :=
  input [2; 1; 4] [1; 2; 3; 4; 5; 6; 7; 8]%Z false.

End Sample.

(* ===================================================================== *)
(** * Vocabulary of the properties                                        *)
(* ===================================================================== *)

Definition map_result {A B} (f : A -> B) (r : result A) : result B :=
  match r with
  | Ok a => Ok (f a)
  | Raise e => Raise e
  end.

(** The names read from the environment, in order. *)
Definition getenvs (evs : list event) : list string :=
  flat_map (fun e => match e with Getenv v => [v] | _ => [] end) evs.

(** The SM margins handed to the forward kernel, and to the backward
    kernel, in order. *)
Definition fwd_margins (evs : list event) : list Z :=
  flat_map (fun e => match e with RmsnormFwd _ m _ => [m] | _ => [] end) evs.

Definition bwd_margins (evs : list event) : list Z :=
  flat_map (fun e => match e with RmsnormBwd _ m _ => [m] | _ => [] end) evs.

Definition is_reshape (e : event) : bool :=
  match e with
  | TensorOp OpReshape _ => true
  | _ => false
  end.

(** A variable is set to something [int] refuses. *)
Definition unparsable (env : gmap string string) (v : string) : Prop :=
  exists s, env !! v = Some s /\ PyInt.int s = None.

(** A variable is unset, or set to a literal. *)
Definition parsable (env : gmap string string) (v : string) : Prop :=
  match env !! v with
  | Some s => PyInt.int s <> None
  | None => True
  end.

Section Vocabulary.
Context {F : Type} {FO : FloatOps F} {X : Externals F}.

(** The statistic the direct-arithmetic path multiplies row [r] with. *)
Definition norm_of (eps : F) (n r : nat) (d : list F) : F :=
  frsqrt (fadd (fmean (map (fun v => fmul v v) (row n r d))) eps).

(** What the direct-arithmetic path computes, row by row. *)
Definition pd_elements (eps : F) (lead : list nat) (n : nat) (dx dw : list F)
  : list F :=
  flat_map
    (fun r =>
       map (fun j => fmul (fmul (nth (r * n + j) dx fzero) (norm_of eps n r dx))
                       (nth j dw fzero))
         (seq 0 n))
    (seq 0 (numel lead)).

(** The calls of the direct-arithmetic path on an input of shape
    [lead ++ [m]] and a scale of shape [sw]. *)
Definition pd_trace (lead : list nat) (m : nat) (sw : list nat) : list event :=
  [TensorOp OpPow [lead ++ [m]]; TensorOp OpMean [lead ++ [m]];
   TensorOp OpAddScalar [lead ++ [1]]; TensorOp OpRsqrt [lead ++ [1]];
   TensorOp OpMul [lead ++ [m]; lead ++ [1]]; TensorOp OpMul [lead ++ [m]; sw]].

(** The operand of the last product: each row times its statistic. *)
Definition pd_scaled (eps : F) (lead : list nat) (n : nat) (dx : list F)
  : list F :=
  flat_map
    (fun r =>
       map (fun j => fmul (nth (r * n + j) dx fzero) (norm_of eps n r dx))
         (seq 0 n))
    (seq 0 (numel lead)).

Definition with_backend (b : string) (self : RMSNorm.Layer F) : RMSNorm.Layer F :=
  RMSNorm.mkLayer (RMSNorm.eps self) (RMSNorm.zero_centered_gamma self)
    (RMSNorm.sequence_parallel self) b (RMSNorm._dtype self)
    (RMSNorm._weight_attr self) (RMSNorm.weight self)
    (RMSNorm.fwd_rmsnorm_sm_margin self) (RMSNorm.bwd_rmsnorm_sm_margin self).

(** The matrix [reshape((-1, n))] makes of a tensor of shape
    [lead ++ [n]]. *)
Definition flattened (x : Tensor F) (lead : list nat) (n : nat) : Tensor F :=
  derived x [numel lead; n] (data x) (stop_gradient x).

(** The forward kernel returns an output matrix of the shape of the input
    matrix, for this call. *)
Definition fwd_contract (x w : Tensor F) (eps : F) (dt : te_dtype)
  (sm_margin : Z) (zcg : bool) : Prop :=
  shape (fst (rmsnorm_fwd_kernel x w eps dt sm_margin zcg)) = shape x.

(** The backward pass of [ctx] can run on the output gradient [g]: the
    saved tensors and the gradient are live, the gradient has as many
    elements as the saved input matrix, no dimension is empty, and the
    backward kernel returns an input gradient of the shape of the input
    matrix, for this call. *)
Definition bwd_ready (ctx : Ctx) (g : loc) (st : state F) : Prop :=
  exists im w rs gt,
    heap st !! (saved_tensor ctx).1.1 = Some im
    /\ heap st !! (saved_tensor ctx).1.2 = Some w
    /\ heap st !! (saved_tensor ctx).2 = Some rs
    /\ heap st !! g = Some gt
    /\ Forall (lt 0) (shape im)
    /\ Forall (lt 0) (inp_shape ctx)
    /\ numel (shape gt) = numel (shape im)
    /\ numel (inp_shape ctx) = numel (shape im)
    /\ shape (fst (rmsnorm_bwd_kernel
                     (derived gt (shape im) (data gt) (stop_gradient gt))
                     im rs w (ctx_bwd_rmsnorm_sm_margin ctx)
                     (ctx_zero_centered_gamma ctx)))
       = shape im.

(** [_RMSNorm.forward] in closed form, on the tensors [x] and [w] that
    its arguments refer to. *)
Definition forward_outcome (wl : loc) (eps : F) (fm bm : Z) (zcg : bool)
  (st : state F) (x w : Tensor F) : result (Ctx * loc) * state F :=
  match shape w !! 0 with
  | None => (Raise IndexError, st)
  | Some nf =>
      match last (shape x) with
      | None => (Raise IndexError, st)
      | Some ld =>
          if ld =? nf then
            let ev1 := TensorOp OpReshape [shape x] in
            match Shape.reshape (shape x) [(-1)%Z; Z.of_nat nf] with
            | None => (Raise paddle.shape_error, extend st [] [ev1])
            | Some s =>
                let xm := derived x s (data x) (stop_gradient x) in
                match TE_DType (dtype x) with
                | None => (Raise KeyError, extend st [xm] [ev1])
                | Some dt =>
                    let k := rmsnorm_fwd_kernel xm w eps dt fm zcg in
                    let evs := [ev1; RmsnormFwd s fm zcg;
                                TensorOp OpReshape [shape (fst k)]] in
                    let ctx :=
                      mkCtx (length (heap st), wl, length (heap st) + 2)
                        (shape x) bm zcg (negb (stop_gradient x))
                        (negb (stop_gradient w)) in
                    match Shape.reshape (shape (fst k)) (map Z.of_nat (shape x)) with
                    | None =>
                        (Raise paddle.shape_error,
                         extend st [xm; fst k; snd k] evs)
                    | Some s' =>
                        (Ok (ctx, length (heap st) + 3),
                         extend st
                           [xm; fst k; snd k;
                            derived (fst k) s' (data (fst k))
                              (stop_gradient (fst k))]
                           evs)
                    end
                end
            end
          else (Raise (AssertionError "RMSNorm not possible"), st)
      end
  end.

(** [_RMSNorm.backward] in closed form, on the tensors the context and
    the gradient refer to. *)
Definition backward_outcome (ctx : Ctx) (st : state F)
  (im w rs gt : Tensor F) : result (option loc * option loc) * state F :=
  let ev1 := TensorOp OpReshape [shape gt] in
  match Shape.reshape (shape gt) (map Z.of_nat (shape im)) with
  | None => (Raise paddle.shape_error, extend st [] [ev1])
  | Some s =>
      let d := derived gt s (data gt) (stop_gradient gt) in
      let k := rmsnorm_bwd_kernel d im rs w (ctx_bwd_rmsnorm_sm_margin ctx)
                 (ctx_zero_centered_gamma ctx) in
      let ev2 := RmsnormBwd s (ctx_bwd_rmsnorm_sm_margin ctx)
                   (ctx_zero_centered_gamma ctx) in
      let dw := if requires_dw ctx then Some (length (heap st) + 2) else None in
      if requires_dx ctx then
        let ev3 := TensorOp OpReshape [shape (fst k)] in
        match Shape.reshape (shape (fst k)) (map Z.of_nat (inp_shape ctx)) with
        | None =>
            (Raise paddle.shape_error,
             extend st [d; fst k; snd k] [ev1; ev2; ev3])
        | Some s' =>
            (Ok (Some (length (heap st) + 3), dw),
             extend st
               [d; fst k; snd k;
                derived (fst k) s' (data (fst k)) (stop_gradient (fst k))]
               [ev1; ev2; ev3])
        end
      else (Ok (None, dw), extend st [d; fst k; snd k] [ev1; ev2])
  end.

(** The value [int(os.getenv(v, "0"))] has in an environment, if any. *)
Definition env_int (env : gmap string string) (v : string) : option Z :=
  PyInt.int (default "0" (env !! v)).

Definition int_error (env : gmap string string) (v : string) : exn :=
  ValueError
    (String.append "invalid literal for int() with base 10: "
       (default "0" (env !! v))).

(** [RMSNorm.__init__] in closed form. *)
Definition init_outcome (hidden_size : nat) (eps : F)
  (weight_attr : option (paddle.ParamAttr F))
  (zero_centered_gamma sequence_parallel : bool) (backend : string)
  (st : state F) : result (RMSNorm.Layer F) * state F :=
  let attr := default (paddle.mkParamAttr (paddle.Constant fone) true) weight_attr in
  let l := length (heap st) in
  let made :=
    CreateParameter [hidden_size]
      :: (if sequence_parallel then [MarkSequenceParallel l] else []) in
  match paddle.initial_values (paddle.initializer attr) [hidden_size] with
  | None => (Raise paddle.shape_error, extend st [] [CreateParameter [hidden_size]])
  | Some d =>
      let w := mkTensor [hidden_size] d (default_dtype st)
                 (negb (paddle.trainable attr)) sequence_parallel in
      match env_int (environ st) RMSNorm.FWD_VAR with
      | None =>
          (Raise (int_error (environ st) RMSNorm.FWD_VAR),
           extend st [w] (made ++ [Getenv RMSNorm.FWD_VAR]))
      | Some fm =>
          let evs := made ++ [Getenv RMSNorm.FWD_VAR; Getenv RMSNorm.BWD_VAR] in
          match env_int (environ st) RMSNorm.BWD_VAR with
          | None =>
              (Raise (int_error (environ st) RMSNorm.BWD_VAR), extend st [w] evs)
          | Some bm =>
              (Ok (RMSNorm.mkLayer eps zero_centered_gamma sequence_parallel
                     backend (default_dtype st) attr l fm bm),
               extend st [w] evs)
          end
      end
  end.

(** The tensor a call returned, if it returned one. *)
Definition returned (r : result loc * state F) : option (Tensor F) :=
  match r with
  | (Ok out, st') => heap st' !! out
  | (Raise _, _) => None
  end.

(** The scale parameter can be created and both margins can be read. *)
Definition constructible (hidden_size : nat)
  (weight_attr : option (paddle.ParamAttr F)) (st : state F) : Prop :=
  paddle.initial_values
    (paddle.initializer
       (default (paddle.mkParamAttr (paddle.Constant fone) true) weight_attr))
    [hidden_size] <> None
  /\ parsable (environ st) RMSNorm.FWD_VAR
  /\ parsable (environ st) RMSNorm.BWD_VAR.

(** The output has the shape of the input, all its elements, and element
    [(r, j)] is [x * rsqrt(mean(x^2 over the last axis) + eps) * scale]. *)
Definition rms_normalized (eps : F) (lead : list nat) (n : nat)
  (x w y : Tensor F) : Prop :=
  shape y = shape x
  /\ wf y
  /\ forall r j, r < numel lead -> j < n ->
       nth (r * n + j) (data y) fzero
       = fmul (fmul (nth (r * n + j) (data x) fzero) (norm_of eps n r (data x)))
           (nth j (data w) fzero).

End Vocabulary.

(* ===================================================================== *)
(** * What a call may do to the state                                     *)
(* ===================================================================== *)

(** Tensor arithmetic of the framework, reshapes apart. *)
Definition arithmetic_call (e : event) : Prop :=
  match e with
  | TensorOp OpReshape _ => False
  | TensorOp _ _ => True
  | _ => False
  end.

(** A reshape, or the forward kernel with the given margin and flag. *)
Definition forward_call (sm_margin : Z) (zcg : bool) (e : event) : Prop :=
  match e with
  | TensorOp OpReshape _ => True
  | RmsnormFwd _ m z => m = sm_margin /\ z = zcg
  | _ => False
  end.

(** A reshape, or the backward kernel with the given margin and flag. *)
Definition backward_call (sm_margin : Z) (zcg : bool) (e : event) : Prop :=
  match e with
  | TensorOp OpReshape _ => True
  | RmsnormBwd _ m z => m = sm_margin /\ z = zcg
  | _ => False
  end.

(** A tensor operation or a kernel call: anything but a read of the
    environment, the creation of a parameter or its marking. *)
Definition tensor_call (e : event) : Prop :=
  match e with
  | TensorOp _ _ | RmsnormFwd _ _ _ | RmsnormBwd _ _ _ => True
  | _ => False
  end.

Section Frames.
Context {F : Type}.

(** [st'] is [st] with more tensors, more attached contexts and more
    calls: every object of [st] is there unchanged, the environment and
    the default dtype are the same, the new calls satisfy [p] and the new
    contexts satisfy [q]. *)
Definition grows (p : event -> Prop) (q : loc * Ctx -> Prop)
  (st st' : state F) : Prop :=
  exists ts tp evs,
    st' = mkState (heap st ++ ts) (environ st) (default_dtype st)
            (tape st ++ tp) (trace st ++ evs)
    /\ Forall p evs
    /\ Forall q tp.

(** A computation that only lets the state grow, whatever it returns. *)
Definition keeps {A} (p : event -> Prop) (q : loc * Ctx -> Prop) (m : M F A)
  : Prop :=
  forall st, grows p q st (snd (m st)).

End Frames.

Section Stretching.
Context {F : Type} {FO : FloatOps F}.

(** What the direct-arithmetic path computes on an input whose last
    dimension is one and a scale of [n] elements: element [r] of the
    input, normalized by itself, times each element of the scale. *)
Definition pd_stretched (eps : F) (lead : list nat) (n : nat) (dx dw : list F)
  : list F :=
  flat_map
    (fun r =>
       map (fun j => fmul (fmul (nth r dx fzero) (norm_of eps 1 r dx))
                       (nth j dw fzero))
         (seq 0 n))
    (seq 0 (numel lead)).

End Stretching.

(* ===================================================================== *)
(** * The library functions on small inputs                               *)
(* ===================================================================== *)

Example int_plain : PyInt.int "12" = Some 12%Z.
Proof. reflexivity. Qed.

Example int_signed_spaced_grouped :
  PyInt.int (String (ascii_of_nat 9) " -1_000 " ++ String (ascii_of_nat 10) "")%string
  = Some (-1000)%Z.
Proof. reflexivity. Qed.

Example int_refuses :
  map PyInt.int [""; "+"; "1.5"; "0x10"; "1__0"; "_1"; "1_"; "1 2"; "- 1"; "eight"]
  = repeat None 10.
Proof. reflexivity. Qed.

Example reshape_collapses : Shape.reshape [2; 3; 4] [(-1)%Z; 4%Z] = Some [6; 4].
Proof. reflexivity. Qed.

Example reshape_copies : Shape.reshape [2; 3; 4] [0%Z; (-1)%Z] = Some [2; 12].
Proof. reflexivity. Qed.

Example reshape_refuses :
  map (Shape.reshape [2; 3; 4]) [[5%Z; (-1)%Z]; [(-1)%Z; (-1)%Z]; [4%Z; 4%Z]]
  = repeat None 3.
Proof. reflexivity. Qed.

Example broadcast_stretches : Shape.broadcast [2; 1] [4] = Some [2; 4].
Proof. reflexivity. Qed.

Example broadcast_refuses : Shape.broadcast [2; 3] [4] = None.
Proof. reflexivity. Qed.

Example one_e_minus_5 :
  Binary32.to_Q Sample.eps = Some (10995116 # 1099511627776)%Q.
Proof. reflexivity. Qed.

(* ===================================================================== *)
(** * Facts about rows and broadcasting                                   *)
(* ===================================================================== *)

Section ListFacts.
Context {A : Type}.

Lemma nth_row (n r k : nat) (d : list A) (x : A) :
  k < n -> nth k (row n r d) x = nth (r * n + k) d x.
Proof.
  intros Hk. unfold row.
  rewrite nth_firstn.
  destruct (Nat.ltb_spec k n) as [_|Hge]; [|lia].
  apply nth_skipn.
Qed.

Lemma flat_map_seq_shift {B} (G : nat -> list B) (a len : nat) :
  flat_map G (seq a len) = flat_map (fun r => G (a + r)) (seq 0 len).
Proof.
  revert a G. induction len as [|len IH]; intros a G; [reflexivity|].
  cbn [seq flat_map]. rewrite Nat.add_0_r. f_equal.
  rewrite (IH (S a)), (IH 1).
  apply flat_map_ext. intros r. f_equal. lia.
Qed.

(** Two nested row loops are one loop over the product. *)
Lemma flat_map_seq_mul {B} (G : nat -> list B) (d P : nat) :
  flat_map (fun i => flat_map (fun r => G (i * P + r)) (seq 0 P)) (seq 0 d)
  = flat_map G (seq 0 (d * P)).
Proof.
  induction d as [|d IH]; [reflexivity|].
  rewrite seq_S, flat_map_app, IH. cbn [flat_map].
  rewrite app_nil_r, Nat.add_0_l.
  replace (S d * P) with (d * P + P) by lia.
  rewrite seq_app, flat_map_app, Nat.add_0_l. f_equal.
  symmetry. apply flat_map_seq_shift.
Qed.

Lemma flat_map_ext_in {B} (f g : nat -> list B) (l : list nat) :
  (forall i, In i l -> f i = g i) -> flat_map f l = flat_map g l.
Proof.
  induction l as [|a l IH]; intros H; [reflexivity|].
  cbn [flat_map]. rewrite (H a) by (left; reflexivity).
  f_equal. apply IH. intros i Hi. apply H. right. exact Hi.
Qed.

Lemma length_flat_map_rows {B} (g : nat -> nat -> B) (n : nat) (l : list nat) :
  length (flat_map (fun r => map (g r) (seq 0 n)) l) = length l * n.
Proof.
  induction l as [|a l IH]; [reflexivity|].
  cbn [flat_map]. rewrite length_app, length_map, length_seq, IH.
  cbn [length]. lia.
Qed.

(** Element [(r, j)] of a tensor given row by row. *)
Lemma nth_flat_map_rows {B} (g : nat -> nat -> B) (n P r j : nat) (x : B) :
  r < P -> j < n ->
  nth (r * n + j) (flat_map (fun r => map (g r) (seq 0 n)) (seq 0 P)) x
  = g r j.
Proof.
  induction P as [|P IH]; intros Hr Hj; [lia|].
  rewrite seq_S, flat_map_app. cbn [flat_map]. rewrite app_nil_r, Nat.add_0_l.
  destruct (Nat.eq_dec r P) as [->|Hne].
  - rewrite app_nth2; rewrite length_flat_map_rows, length_seq; [|lia].
    replace (P * n + j - P * n) with j by lia.
    rewrite (nth_indep _ x (g P 0)) by (rewrite length_map, length_seq; lia).
    rewrite (map_nth (g P) (seq 0 n) 0 j), seq_nth by lia. reflexivity.
  - rewrite app_nth1; [apply IH; lia|].
    rewrite length_flat_map_rows, length_seq. nia.
Qed.

End ListFacts.

Lemma numel_app (s1 s2 : list nat) : numel (s1 ++ s2) = numel s1 * numel s2.
Proof.
  unfold numel. induction s1 as [|a s1 IH]; simpl.
  - lia.
  - rewrite IH. lia.
Qed.

Lemma numel_snoc (s : list nat) (n : nat) : numel (s ++ [n]) = numel s * n.
Proof. rewrite numel_app. unfold numel. simpl. lia. Qed.

Lemma numel_ones (k : nat) : numel (repeat 1 k) = 1.
Proof. unfold numel. induction k as [|k IH]; simpl; [reflexivity|]. rewrite IH. reflexivity. Qed.


(** Products of elements that differ only in how an index is written. *)
Ltac same_elements :=
  repeat match goal with
         | |- [_] = [_] => f_equal
         | |- fmul _ _ = fmul _ _ => f_equal
         | |- nth ?i ?l ?d = nth ?j ?l ?d =>
             replace i with j by lia; reflexivity
         end.

Section BroadcastFacts.
Context {F : Type} {FO : FloatOps F}.

Lemma flat_map_singleton {B} (f : nat -> B) (l : list nat) :
  flat_map (fun i => [f i]) l = map f l.
Proof. induction l as [|a l IH]; [reflexivity|]. cbn. rewrite IH. reflexivity. Qed.

(** Along a dimension of size [d], a side of that size is indexed by the
    loop counter, also when [d] is one. *)
Lemma bcast_index (d i : nat) :
  In i (seq 0 d) -> (if d =? 1 then 0 else i) = i.
Proof.
  rewrite in_seq. intros Hi. destruct (Nat.eqb_spec d 1); lia.
Qed.

Lemma bcast_count (d : nat) : (if d =? 1 then 1 else d) = d.
Proof. destruct (Nat.eqb_spec d 1); lia. Qed.

(** A tensor of shape [lead ++ [n]] times one of shape [lead ++ [1]]:
    row [r] is scaled by element [r]. *)
Lemma bmul_keepdim (lead : list nat) (n : nat) (da db : list F) :
  bmul (lead ++ [n]) (lead ++ [1]) da db
  = flat_map
      (fun r => map (fun j => fmul (nth (r * n + j) da fzero) (nth r db fzero))
                  (seq 0 n))
      (seq 0 (numel lead)).
Proof.
  revert da db. induction lead as [|d lead IH]; intros da db.
  - cbn [app bmul]. rewrite bcast_count.
    change (numel []) with 1. cbn [seq flat_map]. rewrite app_nil_r.
    rewrite <- flat_map_singleton. apply flat_map_ext_in. intros i Hi.
    rewrite (bcast_index n i Hi). cbn [Nat.eqb].
    rewrite !nth_row by lia. same_elements.
  - cbn [app bmul].
    replace (if d =? 1 then d else d) with d by (destruct (d =? 1); reflexivity).
    change (numel (d :: lead)) with (d * numel lead).
    rewrite <- flat_map_seq_mul. apply flat_map_ext_in. intros i Hi.
    rewrite (bcast_index d i Hi), IH, !numel_snoc.
    apply in_seq in Hi.
    apply flat_map_ext_in. intros r Hr. apply in_seq in Hr.
    apply map_ext_in. intros j Hj. apply in_seq in Hj.
    rewrite !nth_row by nia. same_elements.
Qed.

(** A tensor of shape [lead ++ [n]] times a vector of [n] elements, whose
    shape is extended with ones: column [j] is scaled by element [j]. *)
Lemma bmul_vector (lead : list nat) (n : nat) (da db : list F) :
  bmul (lead ++ [n]) (repeat 1 (length lead) ++ [n]) da db
  = flat_map
      (fun r => map (fun j => fmul (nth (r * n + j) da fzero) (nth j db fzero))
                  (seq 0 n))
      (seq 0 (numel lead)).
Proof.
  revert da db. induction lead as [|d lead IH]; intros da db.
  - cbn [length repeat app bmul].
    replace (if n =? 1 then n else n) with n by (destruct (n =? 1); reflexivity).
    change (numel []) with 1. cbn [seq flat_map]. rewrite app_nil_r.
    rewrite <- flat_map_singleton. apply flat_map_ext_in. intros i Hi.
    rewrite (bcast_index n i Hi).
    rewrite !nth_row by lia. same_elements.
  - cbn [length repeat app bmul]. rewrite bcast_count.
    change (numel (d :: lead)) with (d * numel lead).
    rewrite <- flat_map_seq_mul. apply flat_map_ext_in. intros i Hi.
    rewrite (bcast_index d i Hi), IH. cbn [Nat.eqb].
    rewrite !numel_snoc, numel_ones. apply in_seq in Hi.
    apply flat_map_ext_in. intros r Hr. apply in_seq in Hr.
    apply map_ext_in. intros j Hj. apply in_seq in Hj.
    rewrite !nth_row by nia. same_elements.
Qed.

Lemma pad_same (k : nat) (s : list nat) : k <= length s -> Shape.pad k s = s.
Proof.
  intros H. unfold Shape.pad. replace (k - length s) with 0 by lia. reflexivity.
Qed.

Lemma bdim_same (d : nat) : Shape.bdim d d = Some d.
Proof. unfold Shape.bdim. rewrite Nat.eqb_refl. reflexivity. Qed.

Lemma bdim_one_r (d : nat) : Shape.bdim d 1 = Some d.
Proof.
  unfold Shape.bdim. destruct (Nat.eqb_spec d 1) as [->|_]; [reflexivity|].
  destruct (d =? 1); reflexivity.
Qed.

Lemma bshape_keepdim (lead : list nat) (n : nat) :
  Shape.bshape (lead ++ [n]) (lead ++ [1]) = Some (lead ++ [n]).
Proof.
  induction lead as [|d lead IH]; cbn [app Shape.bshape].
  - rewrite bdim_one_r. reflexivity.
  - rewrite bdim_same, IH. reflexivity.
Qed.

Lemma bshape_vector (lead : list nat) (n : nat) :
  Shape.bshape (lead ++ [n]) (repeat 1 (length lead) ++ [n]) = Some (lead ++ [n]).
Proof.
  induction lead as [|d lead IH]; cbn [length repeat app Shape.bshape].
  - rewrite bdim_same. reflexivity.
  - rewrite bdim_one_r, IH. reflexivity.
Qed.

Lemma broadcast_keepdim (lead : list nat) (n : nat) :
  Shape.broadcast (lead ++ [n]) (lead ++ [1]) = Some (lead ++ [n]).
Proof.
  unfold Shape.broadcast. rewrite !pad_same by (rewrite !length_app; cbn; lia).
  apply bshape_keepdim.
Qed.

Lemma broadcast_vector (lead : list nat) (n : nat) :
  Shape.broadcast (lead ++ [n]) [n] = Some (lead ++ [n]).
Proof.
  unfold Shape.broadcast. rewrite pad_same by (rewrite !length_app; cbn; lia).
  unfold Shape.pad. rewrite length_app. cbn [length].
  replace (Nat.max (length lead + 1) 1 - 1) with (length lead) by lia.
  apply bshape_vector.
Qed.

(** The two products of the direct-arithmetic path, on tensors. *)
Lemma t_mul_keepdim (a b : Tensor F) (lead : list nat) (n : nat) :
  shape a = lead ++ [n] -> shape b = lead ++ [1] ->
  t_mul a b
  = Some (derived a (lead ++ [n])
            (flat_map
               (fun r => map (fun j => fmul (nth (r * n + j) (data a) fzero)
                                         (nth r (data b) fzero))
                           (seq 0 n))
               (seq 0 (numel lead)))
            (stop_gradient a && stop_gradient b)).
Proof.
  intros Ha Hb. unfold t_mul. rewrite Ha, Hb, broadcast_keepdim. cbn [mbind option_bind].
  rewrite !pad_same by (rewrite !length_app; cbn; lia).
  rewrite bmul_keepdim. reflexivity.
Qed.

Lemma t_mul_vector (a b : Tensor F) (lead : list nat) (n : nat) :
  shape a = lead ++ [n] -> shape b = [n] ->
  t_mul a b
  = Some (derived a (lead ++ [n])
            (flat_map
               (fun r => map (fun j => fmul (nth (r * n + j) (data a) fzero)
                                         (nth j (data b) fzero))
                           (seq 0 n))
               (seq 0 (numel lead)))
            (stop_gradient a && stop_gradient b)).
Proof.
  intros Ha Hb. unfold t_mul. rewrite Ha, Hb, broadcast_vector. cbn [mbind option_bind].
  rewrite pad_same by (rewrite !length_app; cbn; lia).
  unfold Shape.pad. rewrite length_app. cbn [length].
  replace (Nat.max (length lead + 1) 1 - 1) with (length lead) by lia.
  rewrite bmul_vector. reflexivity.
Qed.

Lemma t_mean_last_snoc (t : Tensor F) (lead : list nat) (n : nat) :
  shape t = lead ++ [n] ->
  t_mean_last t
  = Some (derived t (lead ++ [1])
            (map (fun r => fmean (row n r (data t))) (seq 0 (numel lead)))
            (stop_gradient t)).
Proof.
  intros Ht. unfold t_mean_last. rewrite Ht, last_snoc, removelast_last.
  reflexivity.
Qed.

Lemma row_map {A B} (f : A -> B) (n r : nat) (d : list A) :
  row n r (map f d) = map f (row n r d).
Proof. unfold row. rewrite skipn_map, firstn_map. reflexivity. Qed.

End BroadcastFacts.

(* ===================================================================== *)
(** * Running the calls                                                   *)
(* ===================================================================== *)

Section HeapFacts.
Context {F : Type}.

Lemma extend_extend (st : state F) ts1 evs1 ts2 evs2 :
  extend (extend st ts1 evs1) ts2 evs2 = extend st (ts1 ++ ts2) (evs1 ++ evs2).
Proof. unfold extend. cbn. rewrite <- !app_assoc. reflexivity. Qed.

Lemma lookup_extend_old (st : state F) ts evs (l : loc) (t : Tensor F) :
  heap st !! l = Some t -> heap (extend st ts evs) !! l = Some t.
Proof. intros H. cbn. apply lookup_app_l_Some. exact H. Qed.

Lemma lookup_app_at {A} (h ts : list A) (l k : nat) (t : A) :
  l = length h + k -> ts !! k = Some t -> (h ++ ts) !! l = Some t.
Proof.
  intros -> H. rewrite lookup_app_r by lia.
  replace (length h + k - length h) with k by lia. exact H.
Qed.

End HeapFacts.

(** The [k]-th object allocated since a known state. *)
Ltac new_object k :=
  cbn [heap extend];
  eapply (lookup_app_at _ _ _ k);
  [ rewrite ?length_app; cbn [length]; lia | reflexivity ].

Section RunFacts.
Context {F : Type} {FO : FloatOps F}.

Lemma deref_run (st : state F) (l : loc) (t : Tensor F) :
  heap st !! l = Some t -> deref l st = (Ok t, st).
Proof. intros H. unfold deref. rewrite H. reflexivity. Qed.


Lemma square_run (st : state F) (l : loc) (t : Tensor F) :
  heap st !! l = Some t ->
  paddle.square l st
  = (Ok (length (heap st)), extend st [t_square t] [TensorOp OpPow [shape t]]).
Proof.
  intros H. unfold paddle.square, bind. rewrite (deref_run _ _ _ H). reflexivity.
Qed.

Lemma add_scalar_run (st : state F) (l : loc) (t : Tensor F) (c : F) :
  heap st !! l = Some t ->
  paddle.add_scalar l c st
  = (Ok (length (heap st)),
     extend st [t_add_scalar t c] [TensorOp OpAddScalar [shape t]]).
Proof.
  intros H. unfold paddle.add_scalar, bind. rewrite (deref_run _ _ _ H). reflexivity.
Qed.

Lemma rsqrt_run (st : state F) (l : loc) (t : Tensor F) :
  heap st !! l = Some t ->
  paddle.rsqrt l st
  = (Ok (length (heap st)), extend st [t_rsqrt t] [TensorOp OpRsqrt [shape t]]).
Proof.
  intros H. unfold paddle.rsqrt, bind. rewrite (deref_run _ _ _ H). reflexivity.
Qed.

Lemma mean_last_run (st : state F) (l : loc) (t t' : Tensor F) :
  heap st !! l = Some t -> t_mean_last t = Some t' ->
  paddle.mean_last l st
  = (Ok (length (heap st)), extend st [t'] [TensorOp OpMean [shape t]]).
Proof.
  intros H H'. unfold paddle.mean_last, bind. rewrite (deref_run _ _ _ H).
  cbn. rewrite H'. reflexivity.
Qed.

Lemma mul_run (st : state F) (la lb : loc) (a b t' : Tensor F) :
  heap st !! la = Some a -> heap st !! lb = Some b -> t_mul a b = Some t' ->
  paddle.mul la lb st
  = (Ok (length (heap st)), extend st [t'] [TensorOp OpMul [shape a; shape b]]).
Proof.
  intros Ha Hb H'. unfold paddle.mul, bind.
  rewrite (deref_run _ _ _ Ha), (deref_run _ _ _ Hb). cbn. rewrite H'. reflexivity.
Qed.

Lemma mul_refused (st : state F) (la lb : loc) (a b : Tensor F) :
  heap st !! la = Some a -> heap st !! lb = Some b -> t_mul a b = None ->
  paddle.mul la lb st
  = (Raise paddle.shape_error, extend st [] [TensorOp OpMul [shape a; shape b]]).
Proof.
  intros Ha Hb H'. unfold paddle.mul, bind.
  rewrite (deref_run _ _ _ Ha), (deref_run _ _ _ Hb). cbn. rewrite H'.
  unfold extend. cbn. rewrite app_nil_r. reflexivity.
Qed.

Lemma reshape_run (st : state F) (l : loc) (t : Tensor F) (target : list Z)
  (s : list nat) :
  heap st !! l = Some t -> Shape.reshape (shape t) target = Some s ->
  paddle.reshape l target st
  = (Ok (length (heap st)),
     extend st [derived t s (data t) (stop_gradient t)]
       [TensorOp OpReshape [shape t]]).
Proof.
  intros H H'. unfold paddle.reshape, bind. rewrite (deref_run _ _ _ H).
  cbn. unfold t_reshape. rewrite H'. reflexivity.
Qed.

Lemma nth_map_seq {B} (g : nat -> B) (P r : nat) (d : B) :
  r < P -> nth r (map g (seq 0 P)) d = g r.
Proof.
  intros Hr. rewrite (nth_indep _ d (g 0)) by (rewrite length_map, length_seq; lia).
  rewrite (map_nth g (seq 0 P) 0 r), seq_nth by lia. reflexivity.
Qed.

(** The direct-arithmetic path up to its last product. *)
Lemma pd_forward_steps (self : RMSNorm.Layer F) (inp : loc) (st : state F)
  (x : Tensor F) (lead : list nat) (m : nat) :
  RMSNorm.zero_centered_gamma self = false ->
  heap st !! inp = Some x ->
  shape x = lead ++ [m] ->
  exists (ts : list (Tensor F)) (xn : Tensor F),
    length ts = 4
    /\ shape xn = lead ++ [m]
    /\ data xn = pd_scaled (RMSNorm.eps self) lead m (data x)
    /\ RMSNorm._pd_forward self inp st
       = bind (paddle.mul (length (heap st) + 4) (RMSNorm.weight self)) ret
           (extend st (ts ++ [xn])
              [TensorOp OpPow [lead ++ [m]]; TensorOp OpMean [lead ++ [m]];
               TensorOp OpAddScalar [lead ++ [1]]; TensorOp OpRsqrt [lead ++ [1]];
               TensorOp OpMul [lead ++ [m]; lead ++ [1]]]).
Proof.
  intros Hz Hx Sx.
  unfold RMSNorm._pd_forward. rewrite Hz. unfold bind at 1.
  rewrite (square_run _ _ _ Hx). cbv beta iota.
  set (sq := t_square x).
  unfold bind at 1.
  erewrite mean_last_run; [| new_object 0 | apply t_mean_last_snoc; exact Sx ].
  cbv beta iota. rewrite extend_extend.
  set (ms := derived sq _ _ _).
  unfold bind at 1.
  erewrite add_scalar_run; [| new_object 1 ].
  cbv beta iota. rewrite extend_extend.
  unfold bind at 1.
  erewrite rsqrt_run; [| new_object 2 ].
  cbv beta iota. rewrite extend_extend.
  set (norm := t_rsqrt _).
  unfold bind at 1.
  erewrite mul_run;
    [| apply lookup_extend_old; exact Hx
     | new_object 3
     | apply (t_mul_keepdim x norm lead m Sx); reflexivity ].
  cbv beta iota. rewrite extend_extend.
  set (xn := derived x _ _ _).
  exists [sq; ms; t_add_scalar ms (RMSNorm.eps self); norm], xn.
  split; [reflexivity|]. split; [reflexivity|]. split.
  - subst xn. cbn [data derived]. unfold pd_scaled.
    apply flat_map_ext_in. intros r Hr. apply in_seq in Hr.
    apply map_ext_in. intros j Hj. f_equal.
    subst norm ms sq. cbn [data t_rsqrt t_add_scalar t_square derived].
    rewrite !map_map, nth_map_seq by lia.
    unfold norm_of. rewrite row_map. reflexivity.
  - cbn [app]. subst norm ms sq.
    cbn [shape derived t_square t_rsqrt t_add_scalar]. rewrite Sx.
    cbn [heap extend]. rewrite length_app. reflexivity.
Qed.

(** The direct-arithmetic path when the last dimension is the feature
    size. *)
Lemma pd_forward_run (self : RMSNorm.Layer F) (inp : loc) (st : state F)
  (x w : Tensor F) (lead : list nat) (n : nat) :
  RMSNorm.zero_centered_gamma self = false ->
  heap st !! inp = Some x ->
  heap st !! RMSNorm.weight self = Some w ->
  shape x = lead ++ [n] ->
  shape w = [n] ->
  exists (y : Tensor F) (st' : state F),
    RMSNorm._pd_forward self inp st = (Ok (length (heap st) + 5), st')
    /\ heap st' !! (length (heap st) + 5) = Some y
    /\ shape y = lead ++ [n]
    /\ data y = pd_elements (RMSNorm.eps self) lead n (data x) (data w)
    /\ trace st' = trace st ++ pd_trace lead n [n].
Proof.
  intros Hz Hx Hw Sx Sw.
  destruct (pd_forward_steps self inp st x lead n Hz Hx Sx)
    as (ts & xn & Lts & Sxn & Dxn & ->).
  unfold bind at 1.
  erewrite mul_run;
    [| cbn [heap extend]; apply (lookup_app_at _ _ _ 4); [reflexivity|];
       rewrite <- Lts; apply list_lookup_middle; reflexivity
     | apply lookup_extend_old; exact Hw
     | apply (t_mul_vector xn w lead n Sxn Sw) ].
  cbv beta iota. rewrite extend_extend.
  eexists. eexists. split.
  { unfold ret. f_equal. f_equal. cbn [heap extend].
    rewrite !length_app, Lts. reflexivity. }
  split.
  { cbn [heap extend]. apply (lookup_app_at _ _ _ 5); [reflexivity|].
    rewrite <- app_assoc. replace 5 with (length ts + 1) by lia.
    rewrite lookup_app_r by lia. replace (length ts + 1 - length ts) with 1 by lia.
    reflexivity. }
  split; [reflexivity|]. split.
  - cbn [data derived]. rewrite Dxn. unfold pd_elements, pd_scaled.
    apply flat_map_ext_in. intros r Hr. apply in_seq in Hr.
    apply map_ext_in. intros j Hj. apply in_seq in Hj.
    f_equal. rewrite nth_flat_map_rows by lia. reflexivity.
  - cbn [trace extend]. rewrite Sxn, Sw. reflexivity.
Qed.

Lemma bshape_vector_refused (lead : list nat) (m n : nat) :
  m <> n -> m <> 1 -> n <> 1 ->
  Shape.bshape (lead ++ [m]) (repeat 1 (length lead) ++ [n]) = None.
Proof.
  intros Hmn Hm Hn.
  induction lead as [|d lead IH]; cbn [length repeat app Shape.bshape].
  - unfold Shape.bdim.
    destruct (Nat.eqb_spec m n); [contradiction|].
    destruct (Nat.eqb_spec m 1); [contradiction|].
    destruct (Nat.eqb_spec n 1); [contradiction|]. reflexivity.
  - rewrite bdim_one_r, IH. reflexivity.
Qed.

Lemma t_mul_vector_refused (a b : Tensor F) (lead : list nat) (m n : nat) :
  shape a = lead ++ [m] -> shape b = [n] ->
  m <> n -> m <> 1 -> n <> 1 ->
  t_mul a b = None.
Proof.
  intros Ha Hb Hmn Hm Hn. unfold t_mul, Shape.broadcast. rewrite Ha, Hb.
  rewrite pad_same by (rewrite !length_app; cbn; lia).
  unfold Shape.pad. rewrite length_app. cbn [length].
  replace (Nat.max (length lead + 1) 1 - 1) with (length lead) by lia.
  rewrite (bshape_vector_refused lead m n Hmn Hm Hn). reflexivity.
Qed.

(** The direct-arithmetic path when the last dimension is neither the
    feature size nor one: the last product is refused, after everything
    else was computed. *)
Lemma pd_forward_refused (self : RMSNorm.Layer F) (inp : loc) (st : state F)
  (x w : Tensor F) (lead : list nat) (m n : nat) :
  RMSNorm.zero_centered_gamma self = false ->
  heap st !! inp = Some x ->
  heap st !! RMSNorm.weight self = Some w ->
  shape x = lead ++ [m] ->
  shape w = [n] ->
  m <> n -> m <> 1 -> n <> 1 ->
  exists st' : state F,
    RMSNorm._pd_forward self inp st = (Raise paddle.shape_error, st')
    /\ length (heap st') = length (heap st) + 5
    /\ trace st' = trace st ++ pd_trace lead m [n].
Proof.
  intros Hz Hx Hw Sx Sw Hmn Hm Hn.
  destruct (pd_forward_steps self inp st x lead m Hz Hx Sx)
    as (ts & xn & Lts & Sxn & Dxn & ->).
  unfold bind at 1.
  erewrite mul_refused;
    [| cbn [heap extend]; apply (lookup_app_at _ _ _ 4); [reflexivity|];
       rewrite <- Lts; apply list_lookup_middle; reflexivity
     | apply lookup_extend_old; exact Hw
     | apply (t_mul_vector_refused xn w lead m n Sxn Sw Hmn Hm Hn) ].
  rewrite extend_extend. eexists. split; [reflexivity|]. split.
  - cbn [heap extend]. rewrite !length_app, Lts. reflexivity.
  - cbn [trace extend]. rewrite Sxn, Sw. reflexivity.
Qed.

End RunFacts.

(* ===================================================================== *)
(** * Reshaping                                                           *)
(* ===================================================================== *)

Lemma resolve_dim_infer (s0 : list nat) (i : nat) :
  Shape.resolve_dim s0 i (-1) = Some None.
Proof. reflexivity. Qed.

Lemma resolve_dim_positive (s0 : list nat) (i d : nat) :
  0 < d -> Shape.resolve_dim s0 i (Z.of_nat d) = Some (Some d).
Proof.
  intros Hd. unfold Shape.resolve_dim.
  destruct (Z.eqb_spec (Z.of_nat d) (-1)); [lia|].
  destruct (Z.eqb_spec (Z.of_nat d) 0); [lia|].
  destruct (Z.ltb_spec 0 (Z.of_nat d)); [|lia].
  rewrite Nat2Z.id. reflexivity.
Qed.

Lemma resolve_positive (s0 : list nat) (i : nat) (s : list nat) :
  Forall (lt 0) s -> Shape.resolve s0 i (map Z.of_nat s) = Some (map Some s).
Proof.
  intros H. revert i. induction H as [|d s Hd _ IH]; intros i; [reflexivity|].
  cbn [map Shape.resolve]. rewrite IH, resolve_dim_positive by exact Hd.
  reflexivity.
Qed.

Lemma capacity_known (s : list nat) : Shape.capacity (map Some s) = numel s.
Proof.
  unfold Shape.capacity, numel. induction s as [|d s IH]; simpl; [reflexivity|].
  rewrite IH. reflexivity.
Qed.

Lemma unknowns_known (s : list nat) : Shape.unknowns (map Some s) = 0.
Proof. unfold Shape.unknowns. induction s as [|d s IH]; simpl; auto. Qed.

Lemma default_known (s : list nat) (d : nat) : map (default d) (map Some s) = s.
Proof. rewrite map_map. cbn. apply map_id. Qed.

(** Reshaping to a list of positive dimensions with as many elements. *)
Lemma reshape_positive (s0 s : list nat) :
  Forall (lt 0) s -> numel s0 = numel s ->
  Shape.reshape s0 (map Z.of_nat s) = Some s.
Proof.
  intros H Hn. unfold Shape.reshape.
  rewrite (resolve_positive _ _ _ H), unknowns_known, capacity_known, Hn.
  rewrite Nat.eqb_refl, default_known. reflexivity.
Qed.

(** [reshape((-1, n))] collapses the leading dimensions. *)
Lemma reshape_flatten (lead : list nat) (n : nat) :
  0 < n ->
  Shape.reshape (lead ++ [n]) [(-1)%Z; Z.of_nat n] = Some [numel lead; n].
Proof.
  intros Hn. unfold Shape.reshape. cbn [Shape.resolve].
  rewrite resolve_dim_infer, resolve_dim_positive by exact Hn.
  cbn [Shape.unknowns Shape.capacity fold_right map default].
  rewrite Nat.mul_1_r, numel_snoc.
  destruct (Nat.eqb_spec n 0); [lia|].
  rewrite Nat.Div0.mod_mul, Nat.div_mul by lia. reflexivity.
Qed.

(* ===================================================================== *)
(** * The autograd function, step by step                                 *)
(* ===================================================================== *)

Section AutogradFacts.
Context {F : Type} {FO : FloatOps F} {X : Externals F}.

Lemma reshape_refused (st : state F) (l : loc) (t : Tensor F) (target : list Z) :
  heap st !! l = Some t -> Shape.reshape (shape t) target = None ->
  paddle.reshape l target st
  = (Raise paddle.shape_error, extend st [] [TensorOp OpReshape [shape t]]).
Proof.
  intros H H'. unfold paddle.reshape, bind. rewrite (deref_run _ _ _ H).
  cbn. unfold t_reshape. rewrite H'. cbn. unfold extend. cbn.
  rewrite app_nil_r. reflexivity.
Qed.

Lemma rmsnorm_fwd_run (st : state F) (lx lw : loc) (x w : Tensor F) (eps : F)
  (dt : te_dtype) (m : Z) (z : bool) :
  heap st !! lx = Some x -> heap st !! lw = Some w ->
  rmsnorm_fwd lx lw eps dt m z st
  = (Ok (length (heap st), length (heap st) + 1),
     extend st
       [fst (rmsnorm_fwd_kernel x w eps dt m z);
        snd (rmsnorm_fwd_kernel x w eps dt m z)]
       [RmsnormFwd (shape x) m z]).
Proof.
  intros Hx Hw. unfold rmsnorm_fwd, bind.
  rewrite (deref_run _ _ _ Hx), (deref_run _ _ _ Hw). cbn.
  unfold extend. cbn. rewrite length_app, <- app_assoc. reflexivity.
Qed.

Lemma rmsnorm_bwd_run (st : state F) (ld lx lr lw : loc) (d x r w : Tensor F)
  (m : Z) (z : bool) :
  heap st !! ld = Some d -> heap st !! lx = Some x ->
  heap st !! lr = Some r -> heap st !! lw = Some w ->
  rmsnorm_bwd ld lx lr lw m z st
  = (Ok (length (heap st), length (heap st) + 1),
     extend st
       [fst (rmsnorm_bwd_kernel d x r w m z);
        snd (rmsnorm_bwd_kernel d x r w m z)]
       [RmsnormBwd (shape d) m z]).
Proof.
  intros Hd Hx Hr Hw. unfold rmsnorm_bwd, bind.
  rewrite (deref_run _ _ _ Hd), (deref_run _ _ _ Hx), (deref_run _ _ _ Hr),
    (deref_run _ _ _ Hw). cbn.
  unfold extend. cbn. rewrite length_app, <- app_assoc. reflexivity.
Qed.

(** [forward] is its closed form. *)
Lemma forward_closed_form (inp wl : loc) (eps : F) (fm bm : Z) (zcg : bool)
  (st : state F) (x w : Tensor F) :
  heap st !! inp = Some x -> heap st !! wl = Some w ->
  _RMSNorm.forward inp wl eps fm bm zcg st
  = forward_outcome wl eps fm bm zcg st x w.
Proof.
  intros Hx Hw. unfold _RMSNorm.forward, forward_outcome.
  unfold bind at 1. rewrite (deref_run _ _ _ Hw). cbv beta iota.
  unfold bind at 1. destruct (shape w !! 0) as [nf|]; [|reflexivity].
  cbn [lift]. unfold ret at 1. cbv beta iota.
  unfold bind at 1. rewrite (deref_run _ _ _ Hx). cbv beta iota.
  unfold bind at 1. destruct (last (shape x)) as [ld|]; [|reflexivity].
  cbn [lift]. unfold ret at 1. cbv beta iota.
  unfold bind at 1. destruct (ld =? nf); [|reflexivity].
  cbn [assert]. unfold ret at 1. cbv beta iota.
  unfold bind at 1.
  destruct (Shape.reshape (shape x) [(-1)%Z; Z.of_nat nf]) as [s|] eqn:Hs.
  2:{ rewrite (reshape_refused _ _ _ _ Hx Hs). reflexivity. }
  rewrite (reshape_run _ _ _ _ _ Hx Hs). cbv beta iota.
  set (xm := derived x s (data x) (stop_gradient x)).
  unfold bind at 1. destruct (TE_DType (dtype x)) as [dt|]; [|reflexivity].
  cbn [lift]. unfold ret at 1. cbv beta iota.
  unfold bind at 1.
  erewrite rmsnorm_fwd_run; [| new_object 0 | apply lookup_extend_old; exact Hw].
  cbv beta iota. rewrite extend_extend.
  set (k := rmsnorm_fwd_kernel xm w eps dt fm zcg).
  unfold bind at 1.
  rewrite (deref_run _ inp x) by (apply lookup_extend_old; exact Hx).
  cbv beta iota.
  unfold bind at 1.
  rewrite (deref_run _ wl w) by (apply lookup_extend_old; exact Hw).
  cbv beta iota.
  unfold bind at 1.
  destruct (Shape.reshape (shape (fst k)) (map Z.of_nat (shape x))) as [s'|] eqn:Hs'.
  - erewrite reshape_run; [| new_object 1 | exact Hs'].
    cbv beta iota. rewrite extend_extend. unfold ret.
    cbn [heap extend app]. rewrite !length_app. cbn [length app shape derived].
    rewrite <- !Nat.add_assoc. reflexivity.
  - erewrite reshape_refused; [| new_object 1 | exact Hs'].
    rewrite extend_extend. cbn [app shape derived]. reflexivity.
Qed.

(** [backward] is its closed form. *)
Lemma backward_closed_form (ctx : Ctx) (g : loc) (st : state F)
  (im w rs gt : Tensor F) :
  heap st !! (saved_tensor ctx).1.1 = Some im ->
  heap st !! (saved_tensor ctx).1.2 = Some w ->
  heap st !! (saved_tensor ctx).2 = Some rs ->
  heap st !! g = Some gt ->
  _RMSNorm.backward ctx g st = backward_outcome ctx st im w rs gt.
Proof.
  destruct ctx as [[[iml wl] rsl] ishape bm zcg rdx rdw].
  cbn [saved_tensor fst snd]. intros Him Hw Hrs Hg.
  unfold _RMSNorm.backward, backward_outcome.
  cbn [saved_tensor ctx_bwd_rmsnorm_sm_margin ctx_zero_centered_gamma
         requires_dx requires_dw inp_shape].
  unfold bind at 1. rewrite (deref_run _ _ _ Him). cbv beta iota.
  unfold bind at 1.
  destruct (Shape.reshape (shape gt) (map Z.of_nat (shape im))) as [s|] eqn:Hs.
  2:{ rewrite (reshape_refused _ _ _ _ Hg Hs). reflexivity. }
  rewrite (reshape_run _ _ _ _ _ Hg Hs). cbv beta iota.
  set (d := derived gt s (data gt) (stop_gradient gt)).
  unfold bind at 1.
  erewrite rmsnorm_bwd_run;
    [| new_object 0 | apply lookup_extend_old; exact Him
     | apply lookup_extend_old; exact Hrs | apply lookup_extend_old; exact Hw].
  cbv beta iota. rewrite extend_extend.
  set (k := rmsnorm_bwd_kernel d im rs w bm zcg).
  unfold bind at 1. destruct rdx.
  - unfold bind at 1.
    destruct (Shape.reshape (shape (fst k)) (map Z.of_nat ishape)) as [s'|] eqn:Hs'.
    + erewrite reshape_run; [| new_object 1 | exact Hs'].
      cbv beta iota. rewrite extend_extend. unfold ret.
      cbn [heap extend app]. rewrite !length_app. cbn [length app shape derived].
      rewrite <- !Nat.add_assoc. reflexivity.
    + erewrite reshape_refused; [| new_object 1 | exact Hs'].
      rewrite extend_extend. cbn [app shape derived]. reflexivity.
  - unfold ret. cbn [heap extend app]. rewrite !length_app.
    cbn [length app shape derived]. rewrite <- !Nat.add_assoc. reflexivity.
Qed.

End AutogradFacts.

(* ===================================================================== *)
(** * The layer, step by step                                             *)
(* ===================================================================== *)

Section LayerFacts.
Context {F : Type} {FO : FloatOps F}.

Lemma int_getenv_run (st : state F) (v : string) :
  RMSNorm.int_getenv v st
  = (match env_int (environ st) v with
     | Some z => Ok z
     | None => Raise (int_error (environ st) v)
     end,
     extend st [] [Getenv v]).
Proof.
  unfold RMSNorm.int_getenv, bind, getenv, env_int, int_error, extend.
  cbn. rewrite app_nil_r.
  destruct (environ st !! v) as [s|]; cbn;
    [destruct (PyInt.int s)|]; reflexivity.
Qed.

Lemma insert_last {A} (h : list A) (a b : A) :
  <[length h := b]> (h ++ [a]) = h ++ [b].
Proof.
  rewrite insert_app_r_alt by lia. rewrite Nat.sub_diag. reflexivity.
Qed.

Lemma create_parameter_run (st : state F) (s : list nat)
  (attr : paddle.ParamAttr F) (dt : DType) :
  paddle.create_parameter s attr dt st
  = match paddle.initial_values (paddle.initializer attr) s with
    | Some d =>
        (Ok (length (heap st)),
         extend st [mkTensor s d dt (negb (paddle.trainable attr)) false]
           [CreateParameter s])
    | None => (Raise paddle.shape_error, extend st [] [CreateParameter s])
    end.
Proof.
  unfold paddle.create_parameter, bind, emit.
  destruct (paddle.initial_values (paddle.initializer attr) s); cbn;
    unfold extend; cbn; rewrite ?app_nil_r; reflexivity.
Qed.

Lemma mark_run (st : state F) (t : Tensor F) (evs : list event) :
  mark_as_sequence_parallel_parameter (length (heap st)) (extend st [t] evs)
  = (Ok tt,
     extend st
       [mkTensor (shape t) (data t) (dtype t) (stop_gradient t) true]
       (evs ++ [MarkSequenceParallel (length (heap st))])).
Proof.
  unfold mark_as_sequence_parallel_parameter, bind.
  rewrite (deref_run _ _ t) by (cbn; apply list_lookup_middle; reflexivity).
  unfold emit, store, extend. cbn. rewrite insert_last, <- app_assoc. reflexivity.
Qed.

(** [__init__] is its closed form. *)
Lemma init_closed_form (hidden_size : nat) (eps : F)
  (weight_attr : option (paddle.ParamAttr F)) (zcg sp : bool)
  (backend : string) (st : state F) :
  RMSNorm.__init__ hidden_size eps weight_attr zcg sp backend st
  = init_outcome hidden_size eps weight_attr zcg sp backend st.
Proof.
  unfold RMSNorm.__init__, init_outcome.
  set (attr := default _ weight_attr).
  replace (match weight_attr with Some a => a | None => _ end) with attr
    by (destruct weight_attr; reflexivity).
  unfold bind at 1. unfold get_default_dtype. cbv beta iota.
  unfold bind at 1. rewrite create_parameter_run.
  destruct (paddle.initial_values (paddle.initializer attr) [hidden_size])
    as [d|]; [|reflexivity].
  cbv beta iota. unfold bind at 1.
  destruct sp.
  - rewrite mark_run. cbv beta iota. cbn [shape data dtype stop_gradient].
    unfold bind at 1. rewrite int_getenv_run, extend_extend.
    cbn [environ extend].
    destruct (env_int (environ st) RMSNorm.FWD_VAR) as [fm|]; [|reflexivity].
    unfold bind at 1. rewrite int_getenv_run, extend_extend.
    cbn [environ extend].
    destruct (env_int (environ st) RMSNorm.BWD_VAR) as [bm|]; reflexivity.
  - unfold ret at 1. cbv beta iota.
    unfold bind at 1. rewrite int_getenv_run, extend_extend.
    cbn [environ extend].
    destruct (env_int (environ st) RMSNorm.FWD_VAR) as [fm|]; [|reflexivity].
    unfold bind at 1. rewrite int_getenv_run, extend_extend.
    cbn [environ extend].
    destruct (env_int (environ st) RMSNorm.BWD_VAR) as [bm|]; reflexivity.
Qed.

End LayerFacts.

(* ===================================================================== *)
(** * Properties of the layer                                             *)
(* ===================================================================== *)

Section Dispatch.
Context {F : Type} {FO : FloatOps F} {X : Externals F}.

Lemma forward_paddle (self : RMSNorm.Layer F) (inp : loc) :
  RMSNorm.backend self = "paddle" ->
  RMSNorm.forward self [inp] = RMSNorm._pd_forward self inp.
Proof. intros H. unfold RMSNorm.forward. rewrite H. reflexivity. Qed.

Lemma forward_transformer_engine (self : RMSNorm.Layer F) (inp : loc) :
  RMSNorm.backend self = "transformer_engine" ->
  RMSNorm.forward self [inp] = RMSNorm._te_forward self inp.
Proof. intros H. unfold RMSNorm.forward. rewrite H. reflexivity. Qed.

Lemma parsable_env_int (env : gmap string string) (v : string) :
  parsable env v <-> env_int env v <> None.
Proof.
  unfold parsable, env_int. destruct (env !! v) as [s|]; cbn; [tauto|].
  split; [discriminate | trivial].
Qed.

Lemma unparsable_env_int (env : gmap string string) (v : string) :
  unparsable env v <-> env_int env v = None.
Proof.
  unfold unparsable, env_int. destruct (env !! v) as [s|]; cbn.
  - split; [intros (s' & [= <-] & H); exact H | intros H; exists s; auto].
  - split; [intros (s' & [=] & _) | discriminate].
Qed.

Lemma unset_env_int (env : gmap string string) (v : string) :
  env !! v = None -> env_int env v = Some 0%Z.
Proof. intros H. unfold env_int. rewrite H. reflexivity. Qed.

End Dispatch.



(** C6.  A layer on the direct-arithmetic backend ('paddle') with
    zero-centered gamma enabled raises the 'not implemented' error on
    every forward call, and the state is as before the call: no tensor
    operation was made. *)
Theorem pd_zero_centered_not_implemented
  {F : Type} {FO : FloatOps F} {X : Externals F}
  (self : RMSNorm.Layer F) (inp : loc) (st : state F) :
  RMSNorm.backend self = "paddle" ->
  RMSNorm.zero_centered_gamma self = true ->
  RMSNorm.forward self [inp] st
  = (Raise (NotImplementedError
              "Paddle backend does not support RMSNorm with zero_centered_gamma."),
     st).
Proof.
  intros Hb Hz. rewrite (forward_paddle self inp Hb).
  unfold RMSNorm._pd_forward. rewrite Hz. reflexivity.
Qed.

Lemma pd_zero_centered_not_implemented_witness :
  let self := Sample.layer "paddle" true in
  let st := Sample.world (Sample.input [2; 4] [1; 2; 3; 4; 5; 6; 7; 8]%Z false) in
  RMSNorm.backend self = "paddle"
  /\ RMSNorm.zero_centered_gamma self = true
  /\ RMSNorm.forward (X := Reference.externals) self [1] st
     = (Raise (NotImplementedError
                 "Paddle backend does not support RMSNorm with zero_centered_gamma."),
        st).
Proof.
  intros self st.
  repeat (split; [reflexivity|]).
  apply (pd_zero_centered_not_implemented (X := Reference.externals) self 1 st);
    reflexivity.
Defined.





(** C3.  Without an explicit weight attribute, construction creates the
    scale parameter with the initializer [Constant(1.0)] whatever the
    zero-centered-gamma flag is: the scale is all ones also when the flag
    is set, where the class documentation announces zeros. *)
Theorem default_scale_is_ones
  {F : Type} {FO : FloatOps F}
  (hidden_size : nat) (eps : F) (zcg sp : bool) (backend : string)
  (st st' : state F) (self : RMSNorm.Layer F) :
  RMSNorm.__init__ hidden_size eps None zcg sp backend st = (Ok self, st') ->
  exists w : Tensor F,
    heap st' !! RMSNorm.weight self = Some w
    /\ shape w = [hidden_size]
    /\ data w = repeat fone hidden_size.
Proof.
  rewrite init_closed_form. unfold init_outcome. cbn [default paddle.initializer
    paddle.initial_values].
  destruct (env_int (environ st) RMSNorm.FWD_VAR); [|discriminate].
  destruct (env_int (environ st) RMSNorm.BWD_VAR); [|discriminate].
  intros [= <- <-]. eexists. split; [|split].
  - cbn [RMSNorm.weight]. new_object 0.
  - reflexivity.
  - cbn [data]. unfold numel. cbn [fold_right]. rewrite Nat.mul_1_r. reflexivity.
Qed.

Lemma default_scale_is_ones_witness :
  let built :=
    RMSNorm.__init__ 4 Sample.eps None true false "transformer_engine"
      Sample.boot in
  built = (Ok (Sample.layer "transformer_engine" true), snd built)
  /\ exists w : Tensor spec_float,
       heap (snd built) !! RMSNorm.weight (Sample.layer "transformer_engine" true)
       = Some w
       /\ shape w = [4]
       /\ data w = repeat fone 4.
Proof.
  intros built.
  assert (H : built = (Ok (Sample.layer "transformer_engine" true), snd built))
    by reflexivity.
  split; [exact H|].
  exact (default_scale_is_ones 4 Sample.eps true false "transformer_engine"
           Sample.boot (snd built) (Sample.layer "transformer_engine" true) H).
Defined.

Section TransformerEngineFacts.
Context {F : Type} {FO : FloatOps F} {X : Externals F}.

(** [_te_forward] on live arguments: the closed form of
    [_RMSNorm.forward], and the context attached to the output. *)
Lemma te_forward_closed_form (self : RMSNorm.Layer F) (inp : loc)
  (st : state F) (x w : Tensor F) :
  heap st !! inp = Some x ->
  heap st !! RMSNorm.weight self = Some w ->
  RMSNorm._te_forward self inp st
  = match forward_outcome (RMSNorm.weight self) (RMSNorm.eps self)
            (RMSNorm.fwd_rmsnorm_sm_margin self)
            (RMSNorm.bwd_rmsnorm_sm_margin self)
            (RMSNorm.zero_centered_gamma self) st x w with
    | (Ok (ctx, out), st') => (Ok out, snd (record out ctx st'))
    | (Raise e, st') => (Raise e, st')
    end.
Proof.
  intros Hx Hw. unfold RMSNorm._te_forward, _RMSNorm.apply. unfold bind at 1.
  rewrite (forward_closed_form _ _ _ _ _ _ _ _ _ Hx Hw).
  destruct (forward_outcome _ _ _ _ _ _ _ _) as [[[ctx out]|e] st']; reflexivity.
Qed.

(** The assertion of the accelerated path. *)
Lemma forward_outcome_mismatch (wl : loc) (eps : F) (fm bm : Z) (zcg : bool)
  (st : state F) (x w : Tensor F) (n m : nat) :
  shape w !! 0 = Some n -> last (shape x) = Some m -> m <> n ->
  forward_outcome wl eps fm bm zcg st x w
  = (Raise (AssertionError "RMSNorm not possible"), st).
Proof.
  intros Hw Hx Hne. unfold forward_outcome. rewrite Hw, Hx.
  destruct (Nat.eqb_spec m n); [contradiction|reflexivity].
Qed.

(** The accelerated path on an input of shape [lead ++ [n]] without empty
    dimension, when the kernel returns a matrix of the shape it was
    given. *)
Lemma forward_outcome_ok (wl : loc) (eps : F) (fm bm : Z) (zcg : bool)
  (st : state F) (x w : Tensor F) (lead : list nat) (n : nat) (dt : te_dtype) :
  shape x = lead ++ [n] -> shape w !! 0 = Some n ->
  Forall (lt 0) (lead ++ [n]) ->
  TE_DType (dtype x) = Some dt ->
  fwd_contract (flattened x lead n) w eps dt fm zcg ->
  let k := rmsnorm_fwd_kernel (flattened x lead n) w eps dt fm zcg in
  forward_outcome wl eps fm bm zcg st x w
  = (Ok (mkCtx (length (heap st), wl, length (heap st) + 2) (lead ++ [n]) bm zcg
           (negb (stop_gradient x)) (negb (stop_gradient w)),
         length (heap st) + 3),
     extend st
       [flattened x lead n; fst k; snd k;
        derived (fst k) (lead ++ [n]) (data (fst k)) (stop_gradient (fst k))]
       [TensorOp OpReshape [lead ++ [n]]; RmsnormFwd [numel lead; n] fm zcg;
        TensorOp OpReshape [[numel lead; n]]]).
Proof.
  intros Sx Sw Hpos Hdt Hk k. unfold forward_outcome.
  assert (Hn : 0 < n).
  { apply Forall_app in Hpos as [_ Hn]. inversion Hn. assumption. }
  rewrite Sw, Sx, last_snoc, Nat.eqb_refl, (reshape_flatten lead n Hn), Hdt.
  fold (flattened x lead n). fold k.
  unfold fwd_contract in Hk. fold k in Hk. cbn [flattened shape derived] in Hk.
  rewrite Hk, reshape_positive; [reflexivity | exact Hpos |].
  rewrite numel_snoc. unfold numel. cbn [fold_right]. lia.
Qed.

End TransformerEngineFacts.





(* ===================================================================== *)
(** * The forward/backward pair                                           *)
(* ===================================================================== *)

Section PairFacts.
Context {F : Type} {FO : FloatOps F} {X : Externals F}.

Lemma bind_ok_inv {A B} (m : M F A) (k : A -> M F B) (st st' : state F) (b : B) :
  bind m k st = (Ok b, st') ->
  exists a st1, m st = (Ok a, st1) /\ k a st1 = (Ok b, st').
Proof.
  unfold bind. destruct (m st) as [[a|e] st1]; [|discriminate].
  intros H. exists a, st1. split; [reflexivity | exact H].
Qed.

(** What [forward] leaves on the context. *)
Lemma forward_context (inp wl : loc) (eps : F) (fm bm : Z) (zcg : bool)
  (st st1 : state F) (x w : Tensor F) (ctx : Ctx) (out : loc) :
  heap st !! inp = Some x -> heap st !! wl = Some w ->
  _RMSNorm.forward inp wl eps fm bm zcg st = (Ok (ctx, out), st1) ->
  requires_dx ctx = negb (stop_gradient x)
  /\ requires_dw ctx = negb (stop_gradient w)
  /\ ctx_bwd_rmsnorm_sm_margin ctx = bm
  /\ ctx_zero_centered_gamma ctx = zcg
  /\ inp_shape ctx = shape x.
Proof.
  intros Hx Hw. rewrite (forward_closed_form _ _ _ _ _ _ _ _ _ Hx Hw).
  unfold forward_outcome.
  destruct (shape w !! 0); [|discriminate].
  destruct (last (shape x)); [|discriminate].
  destruct (_ =? _); [|discriminate].
  destruct (Shape.reshape (shape x) _); [|discriminate].
  destruct (TE_DType (dtype x)); [|discriminate].
  destruct (Shape.reshape _ _); [|discriminate].
  intros [= <- _ _]. cbn. auto.
Qed.

(** Which gradients a finished backward pass returns. *)
Lemma backward_returns (ctx : Ctx) (g : loc) (st st' : state F)
  (dx dw : option loc) :
  _RMSNorm.backward ctx g st = (Ok (dx, dw), st') ->
  (dx = None <-> requires_dx ctx = false)
  /\ (dw = None <-> requires_dw ctx = false).
Proof.
  destruct ctx as [[[iml wl] rsl] ishape bm zcg rdx rdw].
  unfold _RMSNorm.backward.
  cbn [saved_tensor ctx_bwd_rmsnorm_sm_margin ctx_zero_centered_gamma
         requires_dx requires_dw inp_shape].
  intros H.
  apply bind_ok_inv in H as (im & s1 & _ & H).
  apply bind_ok_inv in H as (d & s2 & _ & H).
  apply bind_ok_inv in H as ([dxmat dgamma] & s3 & _ & H).
  apply bind_ok_inv in H as (dx0 & s4 & Hdx & H).
  unfold ret in H. injection H as <- <- _.
  split.
  - destruct rdx.
    + apply bind_ok_inv in Hdx as (r & s5 & _ & Hr).
      unfold ret in Hr. injection Hr as <- _. split; discriminate.
    + unfold ret in Hdx. injection Hdx as <- _. split; reflexivity.
  - destruct rdw; split; first [discriminate | reflexivity].
Qed.

(** A backward pass that is ready runs to its end. *)
Lemma backward_ready_returns (ctx : Ctx) (g : loc) (st : state F) :
  bwd_ready ctx g st ->
  exists dx dw st', _RMSNorm.backward ctx g st = (Ok (dx, dw), st').
Proof.
  intros (im & w & rs & gt & Him & Hw & Hrs & Hg & Pim & Pin & Ng & Nin & Hk).
  rewrite (backward_closed_form ctx g st im w rs gt Him Hw Hrs Hg).
  unfold backward_outcome.
  rewrite (reshape_positive _ _ Pim Ng).
  destruct (requires_dx ctx).
  - rewrite Hk, (reshape_positive _ _ Pin (eq_sym Nin)).
    eexists. eexists. eexists. reflexivity.
  - eexists. eexists. eexists. reflexivity.
Qed.

Lemma negb_false_iff_true (b : bool) : negb b = false <-> b = true.
Proof. destruct b; split; first [reflexivity | discriminate]. Qed.

End PairFacts.

(** C4.  After a forward call on the accelerated path, a backward call that
    returns gives [None] for the input gradient exactly when the input had
    [stop_gradient] set at the forward call, and [None] for the scale
    gradient exactly when the scale had it set; each decision looks at its
    own tensor only.  The backward call does return whenever it is
    ready. *)
Theorem backward_none_per_flag
  {F : Type} {FO : FloatOps F} {X : Externals F}
  (inp wl : loc) (eps : F) (fm bm : Z) (zcg : bool) (st st1 : state F)
  (x w : Tensor F) (ctx : Ctx) (out : loc) :
  heap st !! inp = Some x ->
  heap st !! wl = Some w ->
  _RMSNorm.forward inp wl eps fm bm zcg st = (Ok (ctx, out), st1) ->
  forall (g : loc) (st2 : state F),
    (forall dx dw st3,
        _RMSNorm.backward ctx g st2 = (Ok (dx, dw), st3) ->
        (dx = None <-> stop_gradient x = true)
        /\ (dw = None <-> stop_gradient w = true))
    /\ (bwd_ready ctx g st2 ->
        exists dx dw st3, _RMSNorm.backward ctx g st2 = (Ok (dx, dw), st3)).
Proof.
  intros Hx Hw Hf g st2.
  destruct (forward_context _ _ _ _ _ _ _ _ _ _ _ _ Hx Hw Hf) as (Rx & Rw & _).
  split.
  - intros dx dw st3 Hb. apply backward_returns in Hb as [Hdx Hdw].
    rewrite Rx in Hdx. rewrite Rw in Hdw.
    rewrite negb_false_iff_true in Hdx, Hdw. split; assumption.
  - apply backward_ready_returns.
Qed.

Lemma backward_none_per_flag_witness :
  let st := Sample.world Sample.frozen_input in
  let st1 := snd Sample.after_forward in
  let st2 := Sample.place Sample.grad st1 in
  heap st !! 1 = Some Sample.frozen_input
  /\ heap st !! 0 = Some Sample.ones4
  /\ _RMSNorm.forward (X := Reference.externals) 1 0 Sample.eps 0%Z 0%Z false st
     = (Ok (Sample.saved, 5), st1)
  /\ bwd_ready (X := Reference.externals) Sample.saved 6 st2
  /\ (forall dx dw st3,
         _RMSNorm.backward (X := Reference.externals) Sample.saved 6 st2
         = (Ok (dx, dw), st3) ->
         (dx = None <-> stop_gradient Sample.frozen_input = true)
         /\ (dw = None <-> stop_gradient Sample.ones4 = true))
  /\ exists dx dw st3,
       _RMSNorm.backward (X := Reference.externals) Sample.saved 6 st2
       = (Ok (dx, dw), st3).
Proof.
  intros st st1 st2.
  assert (Hx : heap st !! 1 = Some Sample.frozen_input) by reflexivity.
  assert (Hw : heap st !! 0 = Some Sample.ones4) by reflexivity.
  assert (Hf : _RMSNorm.forward (X := Reference.externals) 1 0 Sample.eps 0%Z
                 0%Z false st
               = (Ok (Sample.saved, 5), st1)) by (vm_compute; reflexivity).
  assert (Hr : bwd_ready (X := Reference.externals) Sample.saved 6 st2).
  { unfold bwd_ready. eexists. eexists. eexists. eexists.
    split; [vm_compute; reflexivity|].
    split; [vm_compute; reflexivity|].
    split; [vm_compute; reflexivity|].
    split; [vm_compute; reflexivity|].
    split; [repeat constructor|].
    split; [repeat constructor|].
    split; [reflexivity|]. split; reflexivity. }
  pose proof (backward_none_per_flag (X := Reference.externals) 1 0 Sample.eps
                0%Z 0%Z false st st1 Sample.frozen_input Sample.ones4
                Sample.saved 5 Hx Hw Hf 6 st2) as [Hnone Hret].
  split; [exact Hx|]. split; [exact Hw|]. split; [exact Hf|].
  split; [exact Hr|]. split; [exact Hnone|]. exact (Hret Hr).
Defined.

(** C9.  The two gradient requirements are put on the context by the
    forward call, as the negation of each tensor's [stop_gradient] at that
    moment.  Whatever the caller does to the flags of any tensor between
    the forward call and the backward call, the backward call returns
    [None] for the gradients whose tensor had the flag set at the forward
    call, and for no other. *)
Theorem backward_uses_flags_of_forward
  {F : Type} {FO : FloatOps F} {X : Externals F}
  (inp wl : loc) (eps : F) (fm bm : Z) (zcg : bool) (st st1 : state F)
  (x w : Tensor F) (ctx : Ctx) (out : loc) :
  heap st !! inp = Some x ->
  heap st !! wl = Some w ->
  _RMSNorm.forward inp wl eps fm bm zcg st = (Ok (ctx, out), st1) ->
  (requires_dx ctx = negb (stop_gradient x)
   /\ requires_dw ctx = negb (stop_gradient w))
  /\ forall (acts : list action) (st2 : state F) (g : loc),
       perform acts st1 = (Ok tt, st2) ->
       (forall dx dw st3,
           _RMSNorm.backward ctx g st2 = (Ok (dx, dw), st3) ->
           (dx = None <-> stop_gradient x = true)
           /\ (dw = None <-> stop_gradient w = true))
       /\ (bwd_ready ctx g st2 ->
           exists dx dw st3, _RMSNorm.backward ctx g st2 = (Ok (dx, dw), st3)).
Proof.
  intros Hx Hw Hf.
  destruct (forward_context _ _ _ _ _ _ _ _ _ _ _ _ Hx Hw Hf) as (Rx & Rw & _).
  split; [split; assumption|].
  intros acts st2 g _. split.
  - intros dx dw st3 Hb. apply backward_returns in Hb as [Hdx Hdw].
    rewrite Rx in Hdx. rewrite Rw in Hdw.
    rewrite negb_false_iff_true in Hdx, Hdw. split; assumption.
  - apply backward_ready_returns.
Qed.

Lemma backward_uses_flags_of_forward_witness :
  let st := Sample.world Sample.frozen_input in
  let st1 := snd Sample.after_forward in
  let st2 := snd (perform Sample.flips st1) in
  heap st !! 1 = Some Sample.frozen_input
  /\ heap st !! 0 = Some Sample.ones4
  /\ _RMSNorm.forward (X := Reference.externals) 1 0 Sample.eps 0%Z 0%Z false st
     = (Ok (Sample.saved, 5), st1)
  /\ perform Sample.flips st1 = (Ok tt, st2)
  /\ stop_gradient <$> heap st2 !! 1 = Some false
  /\ stop_gradient <$> heap st2 !! 0 = Some true
  /\ bwd_ready (X := Reference.externals) Sample.saved 6 st2
  /\ (forall dx dw st3,
         _RMSNorm.backward (X := Reference.externals) Sample.saved 6 st2
         = (Ok (dx, dw), st3) ->
         (dx = None <-> stop_gradient Sample.frozen_input = true)
         /\ (dw = None <-> stop_gradient Sample.ones4 = true))
  /\ exists dx dw st3,
       _RMSNorm.backward (X := Reference.externals) Sample.saved 6 st2
       = (Ok (dx, dw), st3).
Proof.
  intros st st1 st2.
  assert (Hx : heap st !! 1 = Some Sample.frozen_input) by reflexivity.
  assert (Hw : heap st !! 0 = Some Sample.ones4) by reflexivity.
  assert (Hf : _RMSNorm.forward (X := Reference.externals) 1 0 Sample.eps 0%Z
                 0%Z false st
               = (Ok (Sample.saved, 5), st1)) by (vm_compute; reflexivity).
  assert (Hp : perform Sample.flips st1 = (Ok tt, st2)) by (vm_compute; reflexivity).
  assert (Hr : bwd_ready (X := Reference.externals) Sample.saved 6 st2).
  { unfold bwd_ready. eexists. eexists. eexists. eexists.
    split; [vm_compute; reflexivity|].
    split; [vm_compute; reflexivity|].
    split; [vm_compute; reflexivity|].
    split; [vm_compute; reflexivity|].
    split; [repeat constructor|].
    split; [repeat constructor|].
    split; [reflexivity|]. split; reflexivity. }
  pose proof (backward_uses_flags_of_forward (X := Reference.externals) 1 0
                Sample.eps 0%Z 0%Z false st st1 Sample.frozen_input
                Sample.ones4 Sample.saved 5 Hx Hw Hf) as [_ Hany].
  destruct (Hany Sample.flips st2 6 Hp) as [Hnone Hret].
  split; [exact Hx|]. split; [exact Hw|]. split; [exact Hf|].
  split; [exact Hp|].
  split; [vm_compute; reflexivity|]. split; [vm_compute; reflexivity|].
  split; [exact Hr|]. split; [exact Hnone|]. exact (Hret Hr).
Defined.

Section MarginFacts.
Context {F : Type} {FO : FloatOps F} {X : Externals F}.


(** The calls of a forward pass on the accelerated path: no read of the
    environment, the forward margin on every kernel call, and on success
    one kernel call and a context carrying the backward margin. *)
Lemma te_forward_calls (self : RMSNorm.Layer F) (inp : loc) (st : state F)
  (x w : Tensor F) :
  heap st !! inp = Some x ->
  heap st !! RMSNorm.weight self = Some w ->
  exists evs,
    trace (snd (RMSNorm._te_forward self inp st)) = trace st ++ evs
    /\ getenvs evs = []
    /\ Forall (eq (RMSNorm.fwd_rmsnorm_sm_margin self)) (fwd_margins evs)
    /\ bwd_margins evs = []
    /\ forall out,
         fst (RMSNorm._te_forward self inp st) = Ok out ->
         fwd_margins evs = [RMSNorm.fwd_rmsnorm_sm_margin self]
         /\ exists ctx,
              tape (snd (RMSNorm._te_forward self inp st))
              = tape st ++ [(out, ctx)]
              /\ ctx_bwd_rmsnorm_sm_margin ctx
                 = RMSNorm.bwd_rmsnorm_sm_margin self.
Proof.
  intros Hx Hw. rewrite (te_forward_closed_form self inp st x w Hx Hw).
  unfold forward_outcome.
  destruct (shape w !! 0);
    [|exists []; rewrite app_nil_r; repeat split; try constructor; discriminate].
  destruct (last (shape x));
    [|exists []; rewrite app_nil_r; repeat split; try constructor; discriminate].
  destruct (_ =? _);
    [|exists []; rewrite app_nil_r; repeat split; try constructor; discriminate].
  destruct (Shape.reshape (shape x) _);
    [|eexists; split; [reflexivity|]; repeat split; try constructor; discriminate].
  destruct (TE_DType (dtype x));
    [|eexists; split; [reflexivity|]; repeat split; try constructor; discriminate].
  destruct (Shape.reshape _ _).
  - eexists. split; [reflexivity|].
    split; [reflexivity|]. split; [repeat constructor|]. split; [reflexivity|].
    intros out [= <-]. split; [reflexivity|].
    eexists. split; reflexivity.
  - eexists. split; [reflexivity|].
    split; [reflexivity|]. split; [repeat constructor|]. split; [reflexivity|].
    discriminate.
Qed.

(** The calls of a backward pass: no read of the environment, the margin
    of the context on every kernel call, and on success one kernel call. *)
Lemma backward_calls (ctx : Ctx) (g : loc) (st : state F)
  (im w rs gt : Tensor F) :
  heap st !! (saved_tensor ctx).1.1 = Some im ->
  heap st !! (saved_tensor ctx).1.2 = Some w ->
  heap st !! (saved_tensor ctx).2 = Some rs ->
  heap st !! g = Some gt ->
  exists evs,
    trace (snd (_RMSNorm.backward ctx g st)) = trace st ++ evs
    /\ getenvs evs = []
    /\ Forall (eq (ctx_bwd_rmsnorm_sm_margin ctx)) (bwd_margins evs)
    /\ forall res,
         fst (_RMSNorm.backward ctx g st) = Ok res ->
         bwd_margins evs = [ctx_bwd_rmsnorm_sm_margin ctx].
Proof.
  intros Him Hw Hrs Hg.
  rewrite (backward_closed_form ctx g st im w rs gt Him Hw Hrs Hg).
  unfold backward_outcome.
  destruct (Shape.reshape (shape gt) _);
    [|eexists; split; [reflexivity|]; repeat split; try constructor; discriminate].
  destruct (requires_dx ctx).
  - destruct (Shape.reshape _ _).
    + eexists. split; [reflexivity|].
      split; [reflexivity|]. split; [repeat constructor|]. reflexivity.
    + eexists. split; [reflexivity|].
      split; [reflexivity|]. split; [repeat constructor|]. discriminate.
  - eexists. split; [reflexivity|].
    split; [reflexivity|]. split; [repeat constructor|]. reflexivity.
Qed.

End MarginFacts.



(* ===================================================================== *)
(** * Calls only let the state grow                                       *)
(* ===================================================================== *)

Section FrameFacts.
Context {F : Type} {FO : FloatOps F} {X : Externals F}.

Lemma grows_refl (p : event -> Prop) (q : loc * Ctx -> Prop) (st : state F) :
  grows p q st st.
Proof.
  exists [], [], []. destruct st. cbn. rewrite !app_nil_r.
  split; [reflexivity|]. split; constructor.
Qed.

Lemma grows_trans (p : event -> Prop) (q : loc * Ctx -> Prop)
  (a b c : state F) :
  grows p q a b -> grows p q b c -> grows p q a c.
Proof.
  intros (ts1 & tp1 & evs1 & -> & P1 & Q1) (ts2 & tp2 & evs2 & -> & P2 & Q2).
  exists (ts1 ++ ts2), (tp1 ++ tp2), (evs1 ++ evs2). cbn.
  rewrite <- !app_assoc. split; [reflexivity|].
  split; apply Forall_app; split; assumption.
Qed.

Lemma grows_weaken (p p' : event -> Prop) (q q' : loc * Ctx -> Prop)
  (a b : state F) :
  (forall e, p e -> p' e) -> (forall c, q c -> q' c) ->
  grows p q a b -> grows p' q' a b.
Proof.
  intros Hp Hq (ts & tp & evs & -> & P & Q). exists ts, tp, evs.
  split; [reflexivity|]. split; eapply Forall_impl; eauto.
Qed.

Lemma grows_extend (p : event -> Prop) (q : loc * Ctx -> Prop) (st : state F)
  (ts : list (Tensor F)) (evs : list event) :
  Forall p evs -> grows p q st (extend st ts evs).
Proof.
  intros P. exists ts, [], evs. unfold extend. rewrite app_nil_r.
  split; [reflexivity|]. split; [exact P | constructor].
Qed.

Section Closure.
Variable p : event -> Prop.
Variable q : loc * Ctx -> Prop.

Lemma keeps_ret {A} (a : A) : keeps p q (ret (F := F) a).
Proof. intros st. apply grows_refl. Qed.

Lemma keeps_raise {A} (e : exn) : keeps p q (raise (F := F) (A := A) e).
Proof. intros st. apply grows_refl. Qed.

Lemma keeps_lift {A} (o : option A) (e : exn) : keeps p q (lift (F := F) o e).
Proof. destruct o; [apply keeps_ret | apply keeps_raise]. Qed.

Lemma keeps_assert (c : bool) (msg : string) : keeps p q (assert (F := F) c msg).
Proof. destruct c; [apply keeps_ret | apply keeps_raise]. Qed.

Lemma keeps_deref (l : loc) : keeps p q (deref (F := F) l).
Proof.
  intros st. unfold deref. destruct (heap st !! l); apply grows_refl.
Qed.

Lemma keeps_alloc (t : Tensor F) : keeps p q (alloc t).
Proof.
  intros st. exists [t], [], []. cbn. rewrite !app_nil_r.
  split; [reflexivity|]. split; constructor.
Qed.

Lemma keeps_emit (e : event) : p e -> keeps p q (emit (F := F) e).
Proof.
  intros He st. exists [], [], [e]. cbn. rewrite !app_nil_r.
  split; [reflexivity|]. split; repeat constructor. exact He.
Qed.

Lemma keeps_record (out : loc) (c : Ctx) :
  q (out, c) -> keeps p q (record (F := F) out c).
Proof.
  intros Hc st. exists [], [(out, c)], []. cbn. rewrite !app_nil_r.
  split; [reflexivity|]. split; repeat constructor. exact Hc.
Qed.

Lemma keeps_bind {A B} (m : M F A) (k : A -> M F B) :
  keeps p q m -> (forall a, keeps p q (k a)) -> keeps p q (bind m k).
Proof.
  intros Hm Hk st. unfold bind. specialize (Hm st).
  destruct (m st) as [[a|e] st1]; cbn [snd] in Hm.
  - eapply grows_trans; [exact Hm | apply Hk].
  - exact Hm.
Qed.

End Closure.

(** Closing a goal [keeps p q m] along the structure of [m]. *)
Ltac keeps_steps :=
  repeat first
    [ apply keeps_bind; [| intros ? ]
    | apply keeps_ret | apply keeps_raise | apply keeps_lift
    | apply keeps_assert | apply keeps_deref | apply keeps_alloc
    | apply keeps_emit; cbn; solve [auto]
    | match goal with
      | |- keeps _ _ (let '(_, _) := ?a in _) => destruct a
      | |- keeps _ _ (if ?b then _ else _) => destruct b
      end ].

Lemma keeps_pd_forward (self : RMSNorm.Layer F) (inp : loc) :
  keeps arithmetic_call (fun _ => False) (RMSNorm._pd_forward self inp).
Proof.
  unfold RMSNorm._pd_forward, paddle.square, paddle.mean_last,
    paddle.add_scalar, paddle.rsqrt, paddle.mul.
  keeps_steps.
Qed.

Lemma keeps_autograd_forward (inp wl : loc) (eps : F) (fm bm : Z) (z : bool) :
  keeps (forward_call fm z) (fun _ => False)
    (_RMSNorm.forward inp wl eps fm bm z).
Proof.
  unfold _RMSNorm.forward, paddle.reshape, rmsnorm_fwd. keeps_steps.
Qed.

Lemma keeps_autograd_backward (ctx : Ctx) (g : loc) :
  keeps (backward_call (ctx_bwd_rmsnorm_sm_margin ctx) (ctx_zero_centered_gamma ctx))
    (fun _ => False) (_RMSNorm.backward ctx g).
Proof.
  destruct ctx as [[[iml wl] rsl] ishape bm z rdx rdw].
  unfold _RMSNorm.backward, paddle.reshape, rmsnorm_bwd.
  cbn [saved_tensor ctx_bwd_rmsnorm_sm_margin ctx_zero_centered_gamma
         requires_dx requires_dw inp_shape].
  keeps_steps.
Qed.

Lemma keeps_forward (self : RMSNorm.Layer F) (args : list loc) :
  keeps tensor_call (fun _ => True) (RMSNorm.forward self args).
Proof.
  unfold RMSNorm.forward.
  destruct (String.eqb _ _).
  { destruct args as [|inp [|]]; try apply keeps_raise.
    unfold RMSNorm._te_forward, _RMSNorm.apply.
    apply keeps_bind.
    - intros st. eapply grows_weaken; [| | apply keeps_autograd_forward].
      + intros [] H; cbn in *; try contradiction; exact I.
      + intros c [].
    - intros [ctx out]. apply keeps_bind; [| intros ?; apply keeps_ret].
      apply keeps_record. exact I. }
  destruct (String.eqb _ _); [| apply keeps_raise].
  destruct args as [|inp [|]]; try apply keeps_raise.
  intros st. eapply grows_weaken; [| | apply keeps_pd_forward].
  - intros [] H; cbn in *; try contradiction; try exact I.
  - intros c [].
Qed.

End FrameFacts.

(** X1.  Whatever the backend, the arguments and the outcome, a forward
    call only adds to the state: every tensor object that was live is
    still there, unchanged, the environment and the default dtype are the
    same, and the calls made are tensor operations and kernel calls.  A
    backward call does the same, attaches no context, and makes no call
    but reshapes and the backward kernel with the margin and the
    zero-centered flag of its context. *)
Theorem calls_only_add_to_the_state
  {F : Type} {FO : FloatOps F} {X : Externals F} :
  (forall (self : RMSNorm.Layer F) (args : list loc) (st : state F),
      let st' := snd (RMSNorm.forward self args st) in
      (forall l t, heap st !! l = Some t -> heap st' !! l = Some t)
      /\ environ st' = environ st
      /\ default_dtype st' = default_dtype st
      /\ exists evs, trace st' = trace st ++ evs /\ Forall tensor_call evs)
  /\ (forall (ctx : Ctx) (g : loc) (st : state F),
         let st' := snd (_RMSNorm.backward ctx g st) in
         (forall l t, heap st !! l = Some t -> heap st' !! l = Some t)
         /\ environ st' = environ st
         /\ default_dtype st' = default_dtype st
         /\ tape st' = tape st
         /\ exists evs,
              trace st' = trace st ++ evs
              /\ Forall (backward_call (ctx_bwd_rmsnorm_sm_margin ctx)
                           (ctx_zero_centered_gamma ctx)) evs).
Proof.
  split.
  - intros self args st st'.
    destruct (keeps_forward self args st) as (ts & tp & evs & E & P & _).
    subst st'. rewrite E. cbn.
    split; [intros l t H; apply lookup_app_l_Some; exact H|].
    split; [reflexivity|]. split; [reflexivity|].
    exists evs. split; [reflexivity | exact P].
  - intros ctx g st st'.
    destruct (keeps_autograd_backward ctx g st) as (ts & tp & evs & E & P & Q).
    subst st'. rewrite E. cbn.
    split; [intros l t H; apply lookup_app_l_Some; exact H|].
    split; [reflexivity|]. split; [reflexivity|].
    split; [destruct tp as [|c tp]; [apply app_nil_r | inversion Q; contradiction]|].
    exists evs. split; [reflexivity | exact P].
Qed.

(** X2.  On the direct-arithmetic backend a forward call, whatever its
    arguments and its outcome, attaches no context and makes no call but
    tensor arithmetic: no reshape, no kernel call, no read of the
    environment. *)
Theorem paddle_backend_is_plain_arithmetic
  {F : Type} {FO : FloatOps F} {X : Externals F}
  (self : RMSNorm.Layer F) (args : list loc) (st : state F) :
  RMSNorm.backend self = "paddle" ->
  let st' := snd (RMSNorm.forward self args st) in
  tape st' = tape st
  /\ exists evs,
       trace st' = trace st ++ evs
       /\ Forall arithmetic_call evs
       /\ getenvs evs = []
       /\ fwd_margins evs = []
       /\ bwd_margins evs = []
       /\ existsb is_reshape evs = false.
Proof.
  intros Hb st'. subst st'.
  assert (E0 : RMSNorm.forward self args
               = match args with
                 | [inp] => RMSNorm._pd_forward self inp
                 | _ => raise TypeError
                 end)
    by (unfold RMSNorm.forward; rewrite Hb; reflexivity).
  rewrite E0. clear E0.
  assert (K : keeps arithmetic_call (fun _ => False)
                (match args with
                 | [inp] => RMSNorm._pd_forward self inp
                 | _ => raise TypeError
                 end)).
  { destruct args as [|inp [|]]; try apply keeps_raise. apply keeps_pd_forward. }
  destruct (K st) as (ts & tp & evs & E & P & Q). rewrite E. cbn.
  split; [destruct tp as [|c tp]; [apply app_nil_r | inversion Q; contradiction]|].
  exists evs. split; [reflexivity|]. split; [exact P|].
  clear E. induction P as [|e evs He _ IH]; [repeat split|].
  destruct IH as (G & Fm & Bm & R).
  destruct e as [| | |op s| |]; cbn in He; try contradiction.
  unfold getenvs, fwd_margins, bwd_margins in *.
  cbn [flat_map app existsb]. rewrite G, Fm, Bm, R. repeat split.
  destruct op; [contradiction| | | | |]; reflexivity.
Qed.

Lemma paddle_backend_is_plain_arithmetic_witness :
  let self := Sample.layer "paddle" false in
  let st := Sample.world (Sample.input [2; 3] [1; 2; 3; 4; 5; 6]%Z false) in
  let st' := snd (RMSNorm.forward (X := Reference.externals) self [1] st) in
  RMSNorm.backend self = "paddle"
  /\ tape st' = tape st
  /\ exists evs,
       trace st' = trace st ++ evs
       /\ Forall arithmetic_call evs
       /\ getenvs evs = []
       /\ fwd_margins evs = []
       /\ bwd_margins evs = []
       /\ existsb is_reshape evs = false.
Proof.
  intros self st st'. split; [reflexivity|].
  apply (paddle_backend_is_plain_arithmetic (X := Reference.externals) self [1] st).
  reflexivity.
Defined.

Section ValueFacts.
Context {F : Type} {FO : FloatOps F} {X : Externals F}.

Lemma numel_positive (s : list nat) : Forall (lt 0) s -> 0 < numel s.
Proof.
  unfold numel. induction 1 as [|a s Ha _ IH]; simpl; [lia|]. nia.
Qed.

Lemma matrix_positive (lead : list nat) (n : nat) :
  Forall (lt 0) (lead ++ [n]) -> Forall (lt 0) [numel lead; n].
Proof.
  intros H. apply Forall_app in H as [Hl Hn]. inversion Hn; subst.
  repeat constructor; [apply numel_positive; exact Hl | assumption].
Qed.

Lemma numel_matrix (a b : nat) : numel [a; b] = a * b.
Proof. unfold numel. cbn. lia. Qed.

(** Reshaping to positive dimensions with another number of elements. *)
Lemma reshape_positive_refused (s0 s : list nat) :
  Forall (lt 0) s -> numel s0 <> numel s ->
  Shape.reshape s0 (map Z.of_nat s) = None.
Proof.
  intros H Hn. unfold Shape.reshape.
  rewrite (resolve_positive _ _ _ H), unknowns_known, capacity_known.
  destruct (Nat.eqb_spec (numel s0) (numel s)); [contradiction | reflexivity].
Qed.

End ValueFacts.

(** X3.  On an input of shape [lead ++ [n]] the autograd forward returns
    the elements of the kernel's output matrix, unchanged, in the shape of
    the input.  The context it fills refers to the flattened input (the
    same elements as a matrix of [numel lead] rows), to the weight object
    itself, not a copy, and to the statistic the kernel returned; it
    carries the input's shape, the backward margin and the zero-centered
    flag. *)
Theorem forward_returns_kernel_output
  {F : Type} {FO : FloatOps F} {X : Externals F}
  (inp wl : loc) (eps : F) (fm bm : Z) (zcg : bool) (st : state F)
  (x w : Tensor F) (lead : list nat) (n : nat) (dt : te_dtype) :
  heap st !! inp = Some x ->
  heap st !! wl = Some w ->
  shape x = lead ++ [n] ->
  shape w !! 0 = Some n ->
  Forall (lt 0) (lead ++ [n]) ->
  TE_DType (dtype x) = Some dt ->
  fwd_contract (flattened x lead n) w eps dt fm zcg ->
  let k := rmsnorm_fwd_kernel (flattened x lead n) w eps dt fm zcg in
  exists ctx out st1 y,
    _RMSNorm.forward inp wl eps fm bm zcg st = (Ok (ctx, out), st1)
    /\ heap st1 !! out = Some y
    /\ shape y = shape x
    /\ data y = data (fst k)
    /\ heap st1 !! (saved_tensor ctx).1.1 = Some (flattened x lead n)
    /\ data (flattened x lead n) = data x
    /\ (saved_tensor ctx).1.2 = wl
    /\ heap st1 !! wl = Some w
    /\ heap st1 !! (saved_tensor ctx).2 = Some (snd k)
    /\ inp_shape ctx = shape x
    /\ ctx_bwd_rmsnorm_sm_margin ctx = bm
    /\ ctx_zero_centered_gamma ctx = zcg.
Proof.
  intros Hx Hw Sx Sw Hpos Hdt Hk k.
  rewrite (forward_closed_form _ _ _ _ _ _ _ _ _ Hx Hw).
  rewrite (forward_outcome_ok wl eps fm bm zcg st x w lead n dt Sx Sw Hpos Hdt Hk).
  fold k. eexists. eexists. eexists. eexists.
  split; [reflexivity|]. cbn [saved_tensor fst snd inp_shape
    ctx_bwd_rmsnorm_sm_margin ctx_zero_centered_gamma].
  split; [new_object 3|]. split; [rewrite Sx; reflexivity|].
  split; [reflexivity|]. split; [new_object 0|]. split; [reflexivity|].
  split; [reflexivity|].
  split; [apply lookup_extend_old; exact Hw|].
  split; [new_object 2|]. split; [symmetry; exact Sx|]. split; reflexivity.
Qed.

Lemma forward_returns_kernel_output_witness :
  let x := Sample.live_input in
  let st := Sample.world x in
  let k := rmsnorm_fwd_kernel (Externals := Reference.externals)
             (flattened x [2; 1] 4) Sample.ones4 Sample.eps Reference.kFloat32
             8%Z false in
  heap st !! 1 = Some x
  /\ heap st !! 0 = Some Sample.ones4
  /\ shape x = [2; 1] ++ [4]
  /\ shape Sample.ones4 !! 0 = Some 4
  /\ Forall (lt 0) ([2; 1] ++ [4])
  /\ TE_DType (Externals := Reference.externals) (dtype x) = Some Reference.kFloat32
  /\ fwd_contract (X := Reference.externals) (flattened x [2; 1] 4) Sample.ones4
       Sample.eps Reference.kFloat32 8%Z false
  /\ exists ctx out st1 y,
       _RMSNorm.forward (X := Reference.externals) 1 0 Sample.eps 8%Z 4%Z false st
       = (Ok (ctx, out), st1)
       /\ heap st1 !! out = Some y
       /\ shape y = shape x
       /\ data y = data (fst k)
       /\ heap st1 !! (saved_tensor ctx).1.1 = Some (flattened x [2; 1] 4)
       /\ data (flattened x [2; 1] 4) = data x
       /\ (saved_tensor ctx).1.2 = 0
       /\ heap st1 !! 0 = Some Sample.ones4
       /\ heap st1 !! (saved_tensor ctx).2 = Some (snd k)
       /\ inp_shape ctx = shape x
       /\ ctx_bwd_rmsnorm_sm_margin ctx = 4%Z
       /\ ctx_zero_centered_gamma ctx = false.
Proof.
  intros x st k.
  assert (Hpos : Forall (lt 0) ([2; 1] ++ [4])) by (repeat constructor).
  do 7 (split; [first [reflexivity | exact Hpos]|]).
  apply (forward_returns_kernel_output (X := Reference.externals) 1 0 Sample.eps
           8%Z 4%Z false st x Sample.ones4 [2; 1] 4 Reference.kFloat32);
    first [reflexivity | exact Hpos].
Defined.

(** X4.  A forward call followed by the backward call on a gradient with
    as many elements as the input: the backward kernel receives the
    gradient as a matrix of the shape of the flattened input, the
    flattened input, the statistic the forward kernel returned and the
    weight, with the backward margin and the zero-centered flag given to
    the forward call.  The input gradient, when required, has the
    kernel's elements in the shape of the original input; the scale
    gradient, when required, is the tensor the kernel returned, as it
    is. *)
Theorem backward_after_forward
  {F : Type} {FO : FloatOps F} {X : Externals F}
  (inp wl : loc) (eps : F) (fm bm : Z) (zcg : bool) (st : state F)
  (x w gt : Tensor F) (lead : list nat) (n : nat) (dt : te_dtype) :
  heap st !! inp = Some x ->
  heap st !! wl = Some w ->
  shape x = lead ++ [n] ->
  shape w !! 0 = Some n ->
  Forall (lt 0) (lead ++ [n]) ->
  TE_DType (dtype x) = Some dt ->
  fwd_contract (flattened x lead n) w eps dt fm zcg ->
  numel (shape gt) = numel lead * n ->
  let xm := flattened x lead n in
  let kf := rmsnorm_fwd_kernel xm w eps dt fm zcg in
  let dy := derived gt [numel lead; n] (data gt) (stop_gradient gt) in
  let kb := rmsnorm_bwd_kernel dy xm (snd kf) w bm zcg in
  shape (fst kb) = [numel lead; n] ->
  exists ctx out st1 dx dw st3,
    _RMSNorm.forward inp wl eps fm bm zcg st = (Ok (ctx, out), st1)
    /\ _RMSNorm.backward ctx (length (heap st1)) (snd (alloc gt st1))
       = (Ok (dx, dw), st3)
    /\ (if stop_gradient x then dx = None
        else exists l t,
            dx = Some l /\ heap st3 !! l = Some t
            /\ shape t = shape x /\ data t = data (fst kb))
    /\ (if stop_gradient w then dw = None
        else exists l, dw = Some l /\ heap st3 !! l = Some (snd kb))
    /\ bwd_margins (skipn (length (trace st1)) (trace st3)) = [bm].
Proof.
  intros Hx Hw Sx Sw Hpos Hdt Hk Ng xm kf dy kb Hkb.
  rewrite (forward_closed_form _ _ _ _ _ _ _ _ _ Hx Hw).
  rewrite (forward_outcome_ok wl eps fm bm zcg st x w lead n dt Sx Sw Hpos Hdt Hk).
  fold xm. fold kf.
  set (ctx := mkCtx _ _ _ _ _ _).
  set (st1 := extend st _ _).
  set (st2 := snd (alloc gt st1)).
  assert (Him : heap st2 !! (saved_tensor ctx).1.1 = Some xm).
  { subst st2 st1. cbn [alloc snd heap extend saved_tensor ctx fst].
    apply lookup_app_l_Some. apply (lookup_app_at _ _ _ 0); [lia | reflexivity]. }
  assert (Hw2 : heap st2 !! (saved_tensor ctx).1.2 = Some w).
  { subst st2 st1. cbn [alloc snd heap extend saved_tensor ctx fst].
    apply lookup_app_l_Some. apply lookup_app_l_Some. exact Hw. }
  assert (Hrs : heap st2 !! (saved_tensor ctx).2 = Some (snd kf)).
  { subst st2 st1. cbn [alloc snd heap extend saved_tensor ctx fst].
    apply lookup_app_l_Some. apply (lookup_app_at _ _ _ 2); [lia | reflexivity]. }
  assert (Hg : heap st2 !! length (heap st1) = Some gt).
  { subst st2. cbn [alloc snd heap]. apply list_lookup_middle. reflexivity. }
  pose proof (matrix_positive lead n Hpos) as Pm.
  exists ctx, (length (heap st) + 3), st1.
  rewrite (backward_closed_form ctx _ st2 xm w (snd kf) gt Him Hw2 Hrs Hg).
  unfold backward_outcome.
  cbn [ctx requires_dx requires_dw inp_shape ctx_bwd_rmsnorm_sm_margin
         ctx_zero_centered_gamma].
  change (shape xm) with [numel lead; n].
  rewrite (reshape_positive (shape gt) [numel lead; n] Pm)
    by (rewrite numel_matrix; exact Ng).
  fold dy. fold kb.
  assert (Ht : forall ts evs,
             skipn (length (trace st1)) (trace (extend st2 ts evs)) = evs).
  { intros ts evs. subst st2. cbn [alloc snd trace extend].
    rewrite skipn_app, Nat.sub_diag, skipn_all. reflexivity. }
  destruct (stop_gradient x); cbn [negb].
  - eexists. eexists. eexists. split; [reflexivity|]. split; [reflexivity|].
    split; [reflexivity|]. split; [|rewrite Ht; reflexivity].
    destruct (stop_gradient w); cbn [negb]; [reflexivity|].
    eexists. split; [reflexivity|].
    cbn [heap extend]. apply (lookup_app_at _ _ _ 2); [lia | reflexivity].
  - rewrite Hkb, (reshape_positive [numel lead; n] (lead ++ [n]) Hpos)
      by (rewrite numel_matrix, numel_snoc; reflexivity).
    eexists. eexists. eexists. split; [reflexivity|]. split; [reflexivity|].
    split; [|split; [|rewrite Ht; reflexivity]].
    + eexists. eexists. split; [reflexivity|]. split.
      * cbn [heap extend]. apply (lookup_app_at _ _ _ 3); [lia | reflexivity].
      * split; [symmetry; exact Sx | reflexivity].
    + destruct (stop_gradient w); cbn [negb]; [reflexivity|].
      eexists. split; [reflexivity|].
      cbn [heap extend]. apply (lookup_app_at _ _ _ 2); [lia | reflexivity].
Qed.

Lemma backward_after_forward_witness :
  let x := Sample.live_input in
  let w := Sample.ones4 in
  let gt := Sample.grad in
  let st := Sample.world x in
  let xm := flattened x [2; 1] 4 in
  let kf := rmsnorm_fwd_kernel (Externals := Reference.externals) xm w Sample.eps
              Reference.kFloat32 8%Z false in
  let dy := derived gt [numel [2; 1]; 4] (data gt) (stop_gradient gt) in
  let kb := rmsnorm_bwd_kernel (Externals := Reference.externals) dy xm (snd kf) w
              4%Z false in
  heap st !! 1 = Some x
  /\ heap st !! 0 = Some w
  /\ shape x = [2; 1] ++ [4]
  /\ shape w !! 0 = Some 4
  /\ Forall (lt 0) ([2; 1] ++ [4])
  /\ TE_DType (Externals := Reference.externals) (dtype x) = Some Reference.kFloat32
  /\ fwd_contract (X := Reference.externals) xm w Sample.eps Reference.kFloat32
       8%Z false
  /\ numel (shape gt) = numel [2; 1] * 4
  /\ shape (fst kb) = [numel [2; 1]; 4]
  /\ exists ctx out st1 dx dw st3,
       _RMSNorm.forward (X := Reference.externals) 1 0 Sample.eps 8%Z 4%Z false st
       = (Ok (ctx, out), st1)
       /\ _RMSNorm.backward (X := Reference.externals) ctx (length (heap st1))
            (snd (alloc gt st1))
          = (Ok (dx, dw), st3)
       /\ (if stop_gradient x then dx = None
           else exists l t,
               dx = Some l /\ heap st3 !! l = Some t
               /\ shape t = shape x /\ data t = data (fst kb))
       /\ (if stop_gradient w then dw = None
           else exists l, dw = Some l /\ heap st3 !! l = Some (snd kb))
       /\ bwd_margins (skipn (length (trace st1)) (trace st3)) = [4%Z].
Proof.
  intros x w gt st xm kf dy kb.
  assert (Hpos : Forall (lt 0) ([2; 1] ++ [4])) by (repeat constructor).
  do 9 (split; [first [reflexivity | exact Hpos]|]).
  apply (backward_after_forward (X := Reference.externals) 1 0 Sample.eps 8%Z
           4%Z false st x w gt [2; 1] 4 Reference.kFloat32);
    first [reflexivity | exact Hpos].
Defined.

(** X5.  A backward call on a gradient whose number of elements is not
    that of the saved input matrix raises the shape error in its first
    reshape: the backward kernel is not called and nothing is allocated. *)
Theorem backward_refuses_misshapen_gradient
  {F : Type} {FO : FloatOps F} {X : Externals F}
  (ctx : Ctx) (g : loc) (st : state F) (im gt : Tensor F) :
  heap st !! (saved_tensor ctx).1.1 = Some im ->
  heap st !! g = Some gt ->
  Forall (lt 0) (shape im) ->
  numel (shape gt) <> numel (shape im) ->
  _RMSNorm.backward ctx g st
  = (Raise paddle.shape_error, extend st [] [TensorOp OpReshape [shape gt]]).
Proof.
  destruct ctx as [[[iml wl] rsl] ishape bm zcg rdx rdw].
  cbn [saved_tensor fst]. intros Him Hg Pim Hne.
  unfold _RMSNorm.backward. cbn [saved_tensor].
  unfold bind at 1. rewrite (deref_run _ _ _ Him). cbv beta iota.
  unfold bind at 1.
  rewrite (reshape_refused st g gt _ Hg (reshape_positive_refused _ _ Pim Hne)).
  reflexivity.
Qed.

Lemma backward_refuses_misshapen_gradient_witness :
  let st1 := snd Sample.after_forward in
  let gt := Sample.input [3] [1; 1; 1]%Z true in
  let st := Sample.place gt st1 in
  exists im,
    heap st !! (saved_tensor Sample.saved).1.1 = Some im
    /\ heap st !! 6 = Some gt
    /\ Forall (lt 0) (shape im)
    /\ numel (shape gt) <> numel (shape im)
    /\ _RMSNorm.backward (X := Reference.externals) Sample.saved 6 st
       = (Raise paddle.shape_error, extend st [] [TensorOp OpReshape [shape gt]]).
Proof.
  intros st1 gt st.
  exists (flattened Sample.frozen_input [2] 4).
  assert (Him : heap st !! (saved_tensor Sample.saved).1.1
                = Some (flattened Sample.frozen_input [2] 4))
    by (vm_compute; reflexivity).
  assert (Hg : heap st !! 6 = Some gt) by (vm_compute; reflexivity).
  assert (Pim : Forall (lt 0) (shape (flattened Sample.frozen_input [2] 4)))
    by (repeat constructor).
  assert (Hne : numel (shape gt) <> numel (shape (flattened Sample.frozen_input [2] 4)))
    by discriminate.
  split; [exact Him|]. split; [exact Hg|]. split; [exact Pim|]. split; [exact Hne|].
  exact (backward_refuses_misshapen_gradient (X := Reference.externals)
           Sample.saved 6 st _ gt Him Hg Pim Hne).
Defined.

(** X6.  On the accelerated backend, an input whose last dimension is the
    feature size but whose dtype is not in the dtype table raises the key
    error after the input was flattened and before the kernel is called:
    the flattened matrix is the only new tensor, the reshape the only
    call, and no context is attached. *)
Theorem unknown_dtype_fails_before_kernel
  {F : Type} {FO : FloatOps F} {X : Externals F}
  (self : RMSNorm.Layer F) (inp : loc) (st : state F) (x w : Tensor F)
  (lead : list nat) (n : nat) :
  RMSNorm.backend self = "transformer_engine" ->
  heap st !! inp = Some x ->
  heap st !! RMSNorm.weight self = Some w ->
  shape x = lead ++ [n] ->
  shape w = [n] ->
  0 < n ->
  TE_DType (dtype x) = None ->
  RMSNorm.forward self [inp] st
  = (Raise KeyError,
     extend st [flattened x lead n] [TensorOp OpReshape [shape x]]).
Proof.
  intros Hb Hx Hw Sx Sw Hn Hdt.
  rewrite (forward_transformer_engine self inp Hb).
  rewrite (te_forward_closed_form self inp st x w Hx Hw).
  unfold forward_outcome. rewrite Sw. cbn [lookup list_lookup].
  rewrite Sx, last_snoc, Nat.eqb_refl, (reshape_flatten lead n Hn), Hdt.
  reflexivity.
Qed.

Lemma unknown_dtype_fails_before_kernel_witness :
  let self := Sample.layer "transformer_engine" false in
  let x := Sample.input64 [2; 4] [1; 2; 3; 4; 5; 6; 7; 8]%Z in
  let st := Sample.world x in
  RMSNorm.backend self = "transformer_engine"
  /\ heap st !! 1 = Some x
  /\ heap st !! RMSNorm.weight self = Some Sample.ones4
  /\ shape x = [2] ++ [4]
  /\ shape Sample.ones4 = [4]
  /\ 0 < 4
  /\ TE_DType (Externals := Reference.externals) (dtype x) = None
  /\ RMSNorm.forward (X := Reference.externals) self [1] st
     = (Raise KeyError,
        extend st [flattened x [2] 4] [TensorOp OpReshape [shape x]]).
Proof.
  intros self x st.
  assert (H4 : 0 < 4) by lia.
  do 7 (split; [first [reflexivity | exact H4]|]).
  apply (unknown_dtype_fails_before_kernel (X := Reference.externals) self 1 st x
           Sample.ones4 [2] 4); first [reflexivity | exact H4].
Defined.

(** X7.  On the accelerated backend, a weight without dimensions, or
    else an input without dimensions, makes the forward call raise the
    index error of the shape subscript, not the assertion; nothing else
    happens. *)
Theorem dimensionless_arguments_raise_index_error
  {F : Type} {FO : FloatOps F} {X : Externals F}
  (self : RMSNorm.Layer F) (inp : loc) (st : state F) (x w : Tensor F) :
  RMSNorm.backend self = "transformer_engine" ->
  heap st !! inp = Some x ->
  heap st !! RMSNorm.weight self = Some w ->
  shape w = [] \/ shape x = [] ->
  RMSNorm.forward self [inp] st = (Raise IndexError, st).
Proof.
  intros Hb Hx Hw Hs.
  rewrite (forward_transformer_engine self inp Hb).
  rewrite (te_forward_closed_form self inp st x w Hx Hw).
  unfold forward_outcome.
  destruct (shape w) as [|d sw] eqn:Sw; [reflexivity|].
  destruct Hs as [Hs|Hs]; [discriminate|].
  cbn [lookup list_lookup]. rewrite Hs. reflexivity.
Qed.

Lemma dimensionless_arguments_raise_index_error_witness :
  let self := Sample.layer "transformer_engine" false in
  let st := Sample.world Sample.scalar in
  RMSNorm.backend self = "transformer_engine"
  /\ heap st !! 1 = Some Sample.scalar
  /\ heap st !! RMSNorm.weight self = Some Sample.ones4
  /\ (shape Sample.ones4 = [] \/ shape Sample.scalar = [])
  /\ RMSNorm.forward (X := Reference.externals) self [1] st
     = (Raise IndexError, st).
Proof.
  intros self st.
  assert (Hs : shape Sample.ones4 = [] \/ shape Sample.scalar = [])
    by (right; reflexivity).
  do 4 (split; [first [reflexivity | exact Hs]|]).
  apply (dimensionless_arguments_raise_index_error (X := Reference.externals)
           self 1 st Sample.scalar Sample.ones4);
    first [reflexivity | exact Hs].
Defined.





(** X10.  Construction never touches what exists: every tensor object
    that was live is unchanged, as are the environment, the default dtype
    and the attached contexts, whatever the outcome.  It allocates at most
    one tensor; a layer that is returned has the newest object as its
    weight. *)
Theorem construction_allocates_one_parameter
  {F : Type} {FO : FloatOps F}
  (hidden_size : nat) (eps : F) (weight_attr : option (paddle.ParamAttr F))
  (zcg sp : bool) (backend : string) (st : state F) :
  let r := RMSNorm.__init__ hidden_size eps weight_attr zcg sp backend st in
  (forall l t, heap st !! l = Some t -> heap (snd r) !! l = Some t)
  /\ environ (snd r) = environ st
  /\ default_dtype (snd r) = default_dtype st
  /\ tape (snd r) = tape st
  /\ length (heap (snd r)) <= length (heap st) + 1
  /\ forall self,
       fst r = Ok self ->
       RMSNorm.weight self = length (heap st)
       /\ length (heap (snd r)) = length (heap st) + 1.
Proof.
  intros r. subst r. rewrite init_closed_form. unfold init_outcome.
  destruct (paddle.initial_values _ _) as [d|].
  2:{ cbn. rewrite app_nil_r. repeat split; try lia; try discriminate. auto. }
  destruct (env_int (environ st) RMSNorm.FWD_VAR);
    [destruct (env_int (environ st) RMSNorm.BWD_VAR)|];
    cbn [fst snd heap environ default_dtype tape extend];
    rewrite length_app; cbn [length];
    (split; [intros l t H; apply lookup_app_l_Some; exact H|]);
    repeat split; try lia; try discriminate.
  - injection H as <-. reflexivity.
Qed.

(** X11.  Whenever the scale parameter can be created, construction marks
    it as sequence-parallel exactly when the flag is set, right after
    creating it and before reading any margin, so also when construction
    then fails on a margin. *)
Theorem sequence_parallel_marks_the_new_weight
  {F : Type} {FO : FloatOps F}
  (hidden_size : nat) (eps : F) (weight_attr : option (paddle.ParamAttr F))
  (zcg sp : bool) (backend : string) (st : state F) :
  paddle.initial_values
    (paddle.initializer
       (default (paddle.mkParamAttr (paddle.Constant fone) true) weight_attr))
    [hidden_size] <> None ->
  let r := RMSNorm.__init__ hidden_size eps weight_attr zcg sp backend st in
  exists reads,
    skipn (length (trace st)) (trace (snd r))
    = CreateParameter [hidden_size]
        :: (if sp then [MarkSequenceParallel (length (heap st))] else [])
        ++ map Getenv reads.
Proof.
  intros Hp r. subst r. rewrite init_closed_form. unfold init_outcome.
  destruct (paddle.initial_values _ _) as [d|]; [|congruence].
  destruct (env_int (environ st) RMSNorm.FWD_VAR);
    [destruct (env_int (environ st) RMSNorm.BWD_VAR)|];
    cbn [fst snd trace extend];
    rewrite skipn_app, Nat.sub_diag, skipn_all; cbn [app skipn].
  - exists [RMSNorm.FWD_VAR; RMSNorm.BWD_VAR]. destruct sp; reflexivity.
  - exists [RMSNorm.FWD_VAR; RMSNorm.BWD_VAR]. destruct sp; reflexivity.
  - exists [RMSNorm.FWD_VAR]. destruct sp; reflexivity.
Qed.

Lemma sequence_parallel_marks_the_new_weight_witness :
  let st := Sample.with_env {[ RMSNorm.BWD_VAR := "x" ]} in
  let r := RMSNorm.__init__ 4 Sample.eps None false true "paddle" st in
  paddle.initial_values
    (paddle.initializer
       (default (paddle.mkParamAttr (paddle.Constant (fone (F := spec_float))) true)
          None))
    [4] <> None
  /\ exists reads,
       skipn (length (trace st)) (trace (snd r))
       = CreateParameter [4]
           :: [MarkSequenceParallel (length (heap st))] ++ map Getenv reads.
Proof.
  intros st r.
  assert (H : paddle.initial_values
                (paddle.initializer
                   (default
                      (paddle.mkParamAttr
                         (paddle.Constant (fone (F := spec_float))) true)
                      None))
                [4] <> None) by discriminate.
  split; [exact H|].
  exact (sequence_parallel_marks_the_new_weight 4 Sample.eps None false true
           "paddle" st H).
Defined.

Section StretchFacts.
Context {F : Type} {FO : FloatOps F}.

Lemma bdim_one_l (d : nat) : Shape.bdim 1 d = Some d.
Proof.
  unfold Shape.bdim. destruct (Nat.eqb_spec 1 d) as [<-|_]; reflexivity.
Qed.

Lemma bshape_stretch (lead : list nat) (n : nat) :
  Shape.bshape (lead ++ [1]) (repeat 1 (length lead) ++ [n]) = Some (lead ++ [n]).
Proof.
  induction lead as [|d lead IH]; cbn [length repeat app Shape.bshape].
  - rewrite bdim_one_l. reflexivity.
  - rewrite bdim_one_r, IH. reflexivity.
Qed.

(** A tensor of shape [lead ++ [1]] times a vector of [n] elements: each
    element is repeated along the last dimension. *)
Lemma bmul_stretch (lead : list nat) (n : nat) (da db : list F) :
  bmul (lead ++ [1]) (repeat 1 (length lead) ++ [n]) da db
  = flat_map
      (fun r => map (fun j => fmul (nth r da fzero) (nth j db fzero)) (seq 0 n))
      (seq 0 (numel lead)).
Proof.
  revert da db. induction lead as [|d lead IH]; intros da db.
  - cbn [length repeat app bmul]. cbn [Nat.eqb].
    change (numel []) with 1. cbn [seq flat_map]. rewrite app_nil_r.
    rewrite <- flat_map_singleton. apply flat_map_ext_in. intros i Hi.
    rewrite (bcast_index n i Hi).
    rewrite !nth_row by lia. same_elements.
  - cbn [length repeat app bmul]. rewrite bcast_count.
    change (numel (d :: lead)) with (d * numel lead).
    rewrite <- flat_map_seq_mul. apply flat_map_ext_in. intros i Hi.
    rewrite (bcast_index d i Hi), IH. cbn [Nat.eqb].
    rewrite !numel_snoc, numel_ones. apply in_seq in Hi.
    apply flat_map_ext_in. intros r Hr. apply in_seq in Hr.
    apply map_ext_in. intros j Hj. apply in_seq in Hj.
    rewrite !nth_row by nia. same_elements.
Qed.

Lemma t_mul_stretch (a b : Tensor F) (lead : list nat) (n : nat) :
  shape a = lead ++ [1] -> shape b = [n] ->
  t_mul a b
  = Some (derived a (lead ++ [n])
            (flat_map
               (fun r => map (fun j => fmul (nth r (data a) fzero)
                                         (nth j (data b) fzero))
                           (seq 0 n))
               (seq 0 (numel lead)))
            (stop_gradient a && stop_gradient b)).
Proof.
  intros Ha Hb. unfold t_mul, Shape.broadcast. rewrite Ha, Hb.
  rewrite pad_same by (rewrite !length_app; cbn; lia).
  unfold Shape.pad. rewrite length_app. cbn [length].
  replace (Nat.max (length lead + 1) 1 - 1) with (length lead) by lia.
  rewrite bshape_stretch. cbn [mbind option_bind].
  rewrite bmul_stretch. reflexivity.
Qed.

End StretchFacts.





Lemma calls_only_add_to_the_state_witness :
  let self := Sample.layer "transformer_engine" false in
  let st := Sample.world Sample.live_input in
  let st' := snd (RMSNorm.forward (X := Reference.externals) self [1] st) in
  heap st !! 0 = Some Sample.ones4
  /\ heap st !! 1 = Some Sample.live_input
  /\ heap st' !! 0 = Some Sample.ones4
  /\ heap st' !! 1 = Some Sample.live_input
  /\ environ st' = environ st
  /\ default_dtype st' = default_dtype st.
Proof.
  intros self st st'.
  assert (H0 : heap st !! 0 = Some Sample.ones4) by reflexivity.
  assert (H1 : heap st !! 1 = Some Sample.live_input) by reflexivity.
  destruct (proj1 (calls_only_add_to_the_state (F := spec_float)
                     (X := Reference.externals)) self [1] st)
    as (Hlive & Henv & Hdt & _).
  split; [exact H0|]. split; [exact H1|].
  split; [exact (Hlive 0 _ H0)|]. split; [exact (Hlive 1 _ H1)|].
  split; [exact Henv | exact Hdt].
Defined.

Lemma construction_allocates_one_parameter_witness :
  let st := Sample.world Sample.live_input in
  let r := RMSNorm.__init__ 4 Sample.eps None false true "paddle" st in
  heap st !! 1 = Some Sample.live_input
  /\ heap (snd r) !! 1 = Some Sample.live_input
  /\ (exists self, fst r = Ok self
                   /\ RMSNorm.weight self = length (heap st)
                   /\ length (heap (snd r)) = length (heap st) + 1).
Proof.
  intros st r.
  assert (H1 : heap st !! 1 = Some Sample.live_input) by reflexivity.
  destruct (construction_allocates_one_parameter 4 Sample.eps None false true
              "paddle" st) as (Hlive & _ & _ & _ & _ & Hok).
  split; [exact H1|]. split; [exact (Hlive 1 _ H1)|].
  eexists. split; [reflexivity|]. apply Hok. reflexivity.
Defined.
